(** * Elastic cable model: rope topology and joint constraints

    A shallow embedding of [CableAPI/APICable.py] (class [RigidBodyRopes]).

    Numbers.  The Python code computes on binary floating-point numbers (and
    hands them to USD as single or half precision).  Here that arithmetic is
    idealised as exact arithmetic: rationals [Q] wherever the source only
    adds, multiplies, divides and truncates, reals [R] where it calls
    [math.cos], [math.sin] or a vector norm.  Rounding is not modelled.
    The one integer the code derives from such a number is [numLinks], the
    truncated quotient of the rope length by the link pitch: near an
    integer the rounded quotient of the code and the exact one here can
    truncate to neighbouring integers.  The properties below hold for
    whichever [numLinks] the object has, or compare the rope length with
    one link pitch, where the rounded and the exact quotient truncate alike
    (the bound on the slack of the single rope is that of the exact
    quotient).

    Stage.  The USD stage the code writes to is modelled as the ordered log
    of the prims it authors: a prim enters the log with the attributes the
    code gives it, at the point where the code has finished writing them.
    Python exceptions are results of the builders, with the log authored so
    far.  Colours and extents are left out. *)

From Stdlib Require Import ZArith QArith Qround Qreals Reals Lra Lia RNsatz Ascii.
From stdpp Require Import base list strings gmap pretty.

Local Open Scope Q_scope.

(* ===================================================================== *)
(** ** Scalars, vectors, quaternions (pxr.Gf) *)
(* ===================================================================== *)

(** The scalar type of an authored array: [Q] in the vertical layout,
    [R] in the radial one. *)
Class Scalar (A : Type) := { s0 : A; s1 : A; of_Q : Q -> A }.

#[global] Instance Scalar_Q : Scalar Q := {| s0 := 0%Q; s1 := 1%Q; of_Q := fun q => q |}.
#[global] Instance Scalar_R : Scalar R := {| s0 := 0%R; s1 := 1%R; of_Q := Q2R |}.

(** [Gf.Vec3f(x, y, z)] *)
Record Vec3 (A : Type) := mkVec3 { vx : A; vy : A; vz : A }.
Arguments mkVec3 {A} _ _ _.
Arguments vx {A} _.
Arguments vy {A} _.
Arguments vz {A} _.

(** [Gf.Quath(real, i, j, k)] *)
Record Quat (A : Type) := mkQuat { qw : A; qi : A; qj : A; qk : A }.
Arguments mkQuat {A} _ _ _ _.
Arguments qw {A} _.
Arguments qi {A} _.
Arguments qj {A} _.
Arguments qk {A} _.

(** [Gf.Quath(1.0)] and [Gf.Quath(1.0, 0.0, 0.0, 0.0)]: real part 1,
    imaginary part zero. *)
Definition Quat_identity {A} `{Scalar A} : Quat A := mkQuat s1 s0 s0 s0.

(** [int(x)] of a Python float: truncation toward zero. *)
Definition py_int (x : Q) : Z := Z.quot (Qnum x) (Zpos (Qden x)).

(** [range(n)] *)
Definition range (n : Z) : list Z := seqZ 0 n.

(* ===================================================================== *)
(** ** USD prims with applied API schemas *)
(* ===================================================================== *)

Inductive VtValue :=
  | VtFloat (q : Q)
  | VtToken (s : string).

(** A prim carrying multiple-apply API schemas: the ordered list of applied
    schema instances and the attributes authored on it, by attribute name. *)
Record UsdPrim := mkPrim {
  apiSchemas : list string;
  attrs : gmap string VtValue
}.

(** [UsdPhysics.Joint.Define(stage, jointPath).GetPrim()] *)
Definition Joint_Define : UsdPrim := mkPrim [] ∅.

Definition ApplyAPI (schema instance : string) (p : UsdPrim) : UsdPrim :=
  mkPrim (apiSchemas p ++ [schema +:+ ":" +:+ instance]) (attrs p).

Definition CreateAttr (name : string) (v : VtValue) (p : UsdPrim) : UsdPrim :=
  mkPrim (apiSchemas p) (<[name := v]> (attrs p)).

(** Attribute names of the three schemas, per instance (degree of freedom). *)
Definition limit_low (dof : string) : string := "limit:" +:+ dof +:+ ":physics:low".
Definition limit_high (dof : string) : string := "limit:" +:+ dof +:+ ":physics:high".
Definition physxLimit_stiffness (dof : string) : string := "physxLimit:" +:+ dof +:+ ":stiffness".
Definition physxLimit_damping (dof : string) : string := "physxLimit:" +:+ dof +:+ ":damping".
Definition physxLimit_contactDistance (dof : string) : string :=
  "physxLimit:" +:+ dof +:+ ":contactDistance".
Definition drive_type (dof : string) : string := "drive:" +:+ dof +:+ ":physics:type".
Definition drive_maxForce (dof : string) : string := "drive:" +:+ dof +:+ ":physics:maxForce".
Definition drive_damping (dof : string) : string := "drive:" +:+ dof +:+ ":physics:damping".
Definition drive_stiffness (dof : string) : string := "drive:" +:+ dof +:+ ":physics:stiffness".

Definition LimitAPI_Apply (dof : string) : UsdPrim -> UsdPrim := ApplyAPI "PhysicsLimitAPI" dof.
Definition PhysxLimitAPI_Apply (dof : string) : UsdPrim -> UsdPrim := ApplyAPI "PhysxLimitAPI" dof.
Definition DriveAPI_Apply (dof : string) : UsdPrim -> UsdPrim := ApplyAPI "PhysicsDriveAPI" dof.

Definition get_attr (p : UsdPrim) (name : string) : option VtValue := attrs p !! name.

(** Python [for d in ds: body], the body updating the prim. *)
Definition for_each {X} (ds : list X) (body : X -> UsdPrim -> UsdPrim) (p : UsdPrim) : UsdPrim :=
  fold_left (fun p d => body d p) ds p.

(* ===================================================================== *)
(** ** The object's fields, as [create] sets them *)
(* ===================================================================== *)

Definition SdfPath := list string.
Definition AppendChild (p : SdfPath) (name : string) : SdfPath := p ++ [name].

Inductive UpAxis := UpX | UpY | UpZ.

(** What the code reads from the stage it is given. *)
Record UsdStage := mkStage {
  GetDefaultPrimPath : SdfPath;
  GetStageMetersPerUnit : Q;
  GetStageUpAxis : UpAxis
}.

Record RigidBodyRopes := mkSelf {
  _defaultPrimPath : SdfPath;
  _payloadRadius : Q;
  _payloadHight : Q;
  _payloadMass : Q;
  _initLoadHeight : Q;
  _payloadPos : Vec3 Q;
  _payloadXform : SdfPath;
  _payloadPath : SdfPath;
  _linkHalfLength : Q;
  _linkRadius : Q;
  _ropeLength : Q;
  _numRopes : Z;
  _ropeSpacing : Q;
  _coneAngleLimit : Q;
  _slideLimit : Q;
  _slideMaxforceLimit : Q;
  _slide_stiffness : Q;
  _slide_damping : Q;
  _slide_stiffness_limit : Q;
  _slide_damping_limit : Q;
  _scaleFactor : Q;
  _tableThickness : Q;
  _boxSize : Q;
  _tableHeight : Q;
  _floorOffset : Q;
  _tableSurfaceDim : Q * Q;
  _tableXform : SdfPath;
  _tableTopPath : SdfPath;
  _upAxis : UpAxis;
  _orientation : list nat
}.

(** The assignments of [create], lines 60-117, in order. *)
Definition configure (stage : UsdStage) (num_ropes : Z)
    (rope_length payload_mass load_height : Q) : RigidBodyRopes :=
  let defaultPrimPath := GetDefaultPrimPath stage in
  let payloadRadius := 0.24 in
  let payloadHight := payloadRadius / 4 in
  let payloadXform := AppendChild defaultPrimPath "CommonPayload" in
  let slide_stiffness := 1e5 in
  let slide_damping := 1e3 in
  let scaleFactor := 1.0 / (GetStageMetersPerUnit stage * 100.0) in
  let tableThickness := 6.0 in
  let tableHeight := load_height + payloadHight / 2 + rope_length + tableThickness * scaleFactor in
  let floorOffset := 0.0 in
  let tableXform := AppendChild defaultPrimPath "Table" in
  {| _defaultPrimPath := defaultPrimPath;
     _payloadRadius := payloadRadius;
     _payloadHight := payloadHight;
     _payloadMass := payload_mass;
     _initLoadHeight := load_height;
     _payloadPos := mkVec3 0.0 0.0 load_height;
     _payloadXform := payloadXform;
     _payloadPath := AppendChild payloadXform "Payload";
     _linkHalfLength := 0.06;
     _linkRadius := 0.02;
     _ropeLength := rope_length;
     _numRopes := num_ropes;
     _ropeSpacing := 15.0;
     _coneAngleLimit := 160;
     _slideLimit := 0.1;
     _slideMaxforceLimit := 10.0 * payload_mass * 9.81;
     _slide_stiffness := slide_stiffness;
     _slide_damping := slide_damping;
     _slide_stiffness_limit := 11 * slide_stiffness;
     _slide_damping_limit := slide_damping;
     _scaleFactor := scaleFactor;
     _tableThickness := tableThickness;
     _boxSize := 12.0;
     _tableHeight := tableHeight;
     _floorOffset := floorOffset - tableHeight;
     _tableSurfaceDim := (200.0, 100.0);
     _tableXform := tableXform;
     _tableTopPath := AppendChild tableXform "tableTopActor";
     _upAxis := GetStageUpAxis stage;
     _orientation :=
       match GetStageUpAxis stage with
       | UpZ => [0; 1; 2]%nat
       | UpY => [1; 2; 0]%nat
       | UpX => [2; 1; 0]%nat
       end |}.

(* ===================================================================== *)
(** ** Joint functions *)
(* ===================================================================== *)

(** [_createCableJoint(self, jointPath, axis="Z")]: the prim authored at
    [jointPath].  The first assignment to [rotatedDOFs], line 213, is
    overwritten in every branch; [slideDOF] is a tuple of one name. *)
Definition _createCableJoint (self : RigidBodyRopes) (axis : string) : UsdPrim :=
  let '(slideDOF, lockedDOFs, rotatedDOFs) :=
    if String.eqb axis "Z" then
      (["transZ"], ["transX"; "transY"], ["rotX"; "rotY"; "rotZ"])
    else if String.eqb axis "X" then
      (["transX"], ["transY"; "transZ"], ["rotY"; "rotZ"; "rotX"])
    else
      (["transY"], ["transX"; "transZ"], ["rotX"; "rotZ"; "rotY"]) in
  let d6Prim := Joint_Define in
  let d6Prim :=
    for_each slideDOF (fun prim p =>
      let p := LimitAPI_Apply prim p in
      let p := CreateAttr (limit_low prim) (VtFloat (-1)) p in
      let p := CreateAttr (limit_high prim) (VtFloat 0.01) p in
      let p := PhysxLimitAPI_Apply prim p in
      let p := CreateAttr (physxLimit_stiffness prim) (VtFloat (_slide_stiffness_limit self)) p in
      let p := CreateAttr (physxLimit_damping prim) (VtFloat (_slide_damping_limit self)) p in
      let p := CreateAttr (physxLimit_contactDistance prim) (VtFloat 0.0001) p in
      let p := DriveAPI_Apply prim p in
      let p := CreateAttr (drive_type prim) (VtToken "force") p in
      let p := CreateAttr (drive_maxForce prim) (VtFloat (_slideMaxforceLimit self)) p in
      let p := CreateAttr (drive_damping prim) (VtFloat (_slide_damping self)) p in
      CreateAttr (drive_stiffness prim) (VtFloat (_slide_stiffness self)) p) d6Prim in
  let d6Prim :=
    for_each lockedDOFs (fun axis p =>
      let p := LimitAPI_Apply axis p in
      let p := CreateAttr (limit_low axis) (VtFloat 0.0) p in
      CreateAttr (limit_high axis) (VtFloat 0.0) p) d6Prim in
  for_each rotatedDOFs (fun d p => LimitAPI_Apply d p) d6Prim.

(** [_createFixJoint(self, jointPath)] *)
Definition _createFixJoint (self : RigidBodyRopes) : UsdPrim :=
  for_each ["transX"; "transY"; "transZ"; "rotX"; "rotY"; "rotZ"] (fun axis p =>
    let p := LimitAPI_Apply axis p in
    let p := CreateAttr (limit_low axis) (VtFloat 1.0) p in
    CreateAttr (limit_high axis) (VtFloat (-1.0)) p) Joint_Define.

(** [_createUniJoint(self, jointPath)] *)
Definition _createUniJoint (self : RigidBodyRopes) : UsdPrim :=
  let d6Prim := Joint_Define in
  let d6Prim :=
    for_each ["transX"; "transY"; "transZ"; "rotZ"] (fun axis p =>
      let p := LimitAPI_Apply axis p in
      let p := CreateAttr (limit_low axis) (VtFloat 0.0) p in
      CreateAttr (limit_high axis) (VtFloat 0.0) p) d6Prim in
  for_each ["rotX"; "rotY"] (fun axis p =>
    let p := LimitAPI_Apply axis p in
    let p := CreateAttr (limit_low axis) (VtFloat (- _coneAngleLimit self)) p in
    CreateAttr (limit_high axis) (VtFloat (_coneAngleLimit self)) p) d6Prim.

(* ===================================================================== *)
(** ** The authored stage and the builder monad *)
(* ===================================================================== *)

(** [UsdGeom.Capsule] with the physics APIs of [_createCapsule]. *)
Record Capsule := mkCapsule {
  capsule_height : Q;
  capsule_radius : Q;
  capsule_axis : string;
  capsule_mass : Q
}.

(** [UsdGeom.Cylinder] of [_createPayload]: a translate op and no orient op. *)
Record Cylinder := mkCylinder {
  cyl_translate : Vec3 Q;
  cyl_orient : option (Quat Q);
  cyl_radius : Q;
  cyl_height : Q;
  cyl_rigidBodyEnabled : bool;
  cyl_linearDamping : Q;
  cyl_mass : Q
}.

(** [UsdGeom.Cube] of [create_box]. *)
Record Cube (A : Type) := mkCube {
  cube_translate : Vec3 A;
  cube_orient : Quat A;
  cube_scale : Vec3 Q;
  cube_size : Q;
  cube_rigidBodyEnabled : bool
}.
Arguments mkCube {A} _ _ _ _ _.

(** [UsdGeom.PointInstancer]: the link collection of one rope. *)
Record PointInstancer (A : Type) := mkPointInstancer {
  prototypes : list SdfPath;
  protoIndices : list Z;
  positions : list (Vec3 A);
  orientations : list (Quat A)
}.
Arguments mkPointInstancer {A} _ _ _ _.
Arguments prototypes {A} _.
Arguments protoIndices {A} _.
Arguments positions {A} _.
Arguments orientations {A} _.

(** [PhysxSchema.PhysxPhysicsJointInstancer]: one joint group. *)
Record JointInstancer (A : Type) := mkJointInstancer {
  physicsPrototypes : list SdfPath;
  physicsBody0s : list SdfPath;
  physicsBody1s : list SdfPath;
  physicsProtoIndices : list Z;
  physicsBody0Indices : list Z;
  physicsBody1Indices : list Z;
  physicsLocalPos0s : list (Vec3 A);
  physicsLocalPos1s : list (Vec3 A);
  physicsLocalRot0s : list (Quat A);
  physicsLocalRot1s : list (Quat A)
}.
Arguments mkJointInstancer {A} _ _ _ _ _ _ _ _ _ _.
Arguments physicsPrototypes {A} _.
Arguments physicsBody0s {A} _.
Arguments physicsBody1s {A} _.
Arguments physicsProtoIndices {A} _.
Arguments physicsBody0Indices {A} _.
Arguments physicsBody1Indices {A} _.
Arguments physicsLocalPos0s {A} _.
Arguments physicsLocalPos1s {A} _.
Arguments physicsLocalRot0s {A} _.
Arguments physicsLocalRot1s {A} _.

Inductive PrimData (A : Type) :=
  | XformPrim
  | CapsulePrim (c : Capsule)
  | CylinderPrim (c : Cylinder)
  | CubePrim (c : Cube A)
  | PointInstancerPrim (pi : PointInstancer A)
  | JointPrim (p : UsdPrim)
  | JointInstancerPrim (ji : JointInstancer A).
Arguments XformPrim {A}.
Arguments CapsulePrim {A} _.
Arguments CylinderPrim {A} _.
Arguments CubePrim {A} _.
Arguments PointInstancerPrim {A} _.
Arguments JointPrim {A} _.
Arguments JointInstancerPrim {A} _.

(** The prims authored so far, oldest first. *)
Definition Stage (A : Type) := list (SdfPath * PrimData A).

Inductive PyError := UnboundLocalError | ZeroDivisionError.

Inductive Res (X : Type) :=
  | Ok (x : X)
  | Raise (e : PyError).
Arguments Ok {X} _.
Arguments Raise {X} _.

(** A builder: it extends the stage and returns or raises. *)
Definition Build (A X : Type) := Stage A -> Stage A * Res X.

Definition ret {A X} (x : X) : Build A X := fun st => (st, Ok x).

Definition raise {A X} (e : PyError) : Build A X := fun st => (st, Raise e).

Definition bind {A X Y} (m : Build A X) (k : X -> Build A Y) : Build A Y :=
  fun st =>
    match m st with
    | (st', Ok x) => k x st'
    | (st', Raise e) => (st', Raise e)
    end.

Notation "x <- m ;; k" := (bind m (fun x => k))
  (at level 100, m at next level, right associativity).
Notation "m ;; k" := (bind m (fun _ => k))
  (at level 100, right associativity).

(** Author one prim. *)
Definition Define {A} (path : SdfPath) (d : PrimData A) : Build A unit :=
  fun st => (st ++ [(path, d)], Ok tt).

(** [stage.GetPrimAtPath(path)] as a truth value. *)
Definition GetPrimAtPath {A} (path : SdfPath) : Build A bool :=
  fun st => (st, Ok (bool_decide (path ∈ st.*1))).

(** Python [for i in xs: body], the body reading and rebinding the function's
    local variables [s]. *)
Fixpoint for_in {A S} (xs : list Z) (body : Z -> S -> Build A S) (s : S) : Build A S :=
  match xs with
  | [] => ret s
  | i :: xs' => s' <- body i s ;; for_in xs' body s'
  end.

(* ===================================================================== *)
(** ** Scene object functions *)
(* ===================================================================== *)

(** [_createCapsule(self, path, axis="Z")] *)
Definition _createCapsule {A} (self : RigidBodyRopes) (path : SdfPath) (axis : string)
    : Build A unit :=
  Define path (CapsulePrim (mkCapsule (_linkHalfLength self) (_linkRadius self) axis 0.008)).

(** [_createPayload(self)] *)
Definition _createPayload {A} (self : RigidBodyRopes) : Build A unit :=
  Define (_payloadXform self) XformPrim ;;
  Define (_payloadPath self)
    (CylinderPrim (mkCylinder (_payloadPos self) None (_payloadRadius self)
       (_payloadHight self) true 0.01 (_payloadMass self))).

Definition Vec3_get (v : Vec3 Q) (i : nat) : Q :=
  match i with
  | O => vx v
  | S O => vy v
  | _ => vz v
  end.

(** [orient_dim(self, vec)] *)
Definition orient_dim (self : RigidBodyRopes) (vec : Vec3 Q) : Vec3 Q :=
  let at_ i := Vec3_get vec (nth i (_orientation self) O) * _scaleFactor self in
  mkVec3 (at_ 0%nat) (at_ 1%nat) (at_ 2%nat).

(** [s.split("/")]: the pieces of [s] between the slashes, empty ones
    included. *)
Fixpoint split_slash (s : string) : list string :=
  match s with
  | EmptyString => [EmptyString]
  | String c s' =>
      if Ascii.eqb c "/"%char then EmptyString :: split_slash s'
      else
        match split_slash s' with
        | seg :: segs => String c seg :: segs
        | [] => [String c EmptyString]
        end
  end.

(** [[seg for seg in rootPath.split("/") if seg]] *)
Definition segments (rootPath : string) : list string :=
  filter (fun seg : string => seg <> EmptyString) (split_slash rootPath).

(** The loop of [get_path] over the segments, lines 630-634: each segment
    is appended to [finalPathRoot], and an [Xform] is defined there unless a
    prim is. *)
Fixpoint get_path_scopes {A} (finalPathRoot : SdfPath) (segments : list string)
    : Build A SdfPath :=
  match segments with
  | [] => ret finalPathRoot
  | seg :: segments' =>
      let finalPathRoot := AppendChild finalPathRoot seg in
      there <- GetPrimAtPath finalPathRoot ;;
      (if there : bool then ret tt else Define finalPathRoot XformPrim) ;;
      get_path_scopes finalPathRoot segments'
  end.

(** [get_path(self, rootPath, primPath)] *)
Definition get_path {A} (self : RigidBodyRopes) (rootPath primPath : string)
    : Build A SdfPath :=
  finalPathRoot <- get_path_scopes (_defaultPrimPath self) (segments rootPath) ;;
  let finalPrimPath := AppendChild finalPathRoot primPath in
  there <- GetPrimAtPath finalPrimPath ;;
  (if there : bool then ret tt else Define finalPrimPath XformPrim) ;;
  ret finalPrimPath.

(** [create_box(self, rootPath, primPath, dimensions, position, color,
    orientation)], with [positionMod] left at [None] as at both call sites. *)
Definition create_box {A} (self : RigidBodyRopes) (rootPath primPath : string)
    (dimensions : Vec3 Q) (position : Vec3 A) (orientation : Quat A) : Build A unit :=
  boxActorPath <- get_path self rootPath primPath ;;
  let newPosition := mkVec3 (vx position) (vy position) (vz position) in
  Define boxActorPath
    (CubePrim (mkCube newPosition orientation (orient_dim self dimensions) 1.0 false)).

(** [create_table(self)] *)
Definition create_table {A} `{Scalar A} (self : RigidBodyRopes) : Build A unit :=
  let tableDim :=
    mkVec3 (fst (_tableSurfaceDim self)) (snd (_tableSurfaceDim self)) (_tableHeight self) in
  create_box self "Table" "tableTopActor"
    (mkVec3 (vx tableDim) (vy tableDim) (_tableThickness self))
    (mkVec3 (of_Q 0.0) (of_Q 0.0)
       (of_Q (vz tableDim - _tableThickness self * _scaleFactor self * 0.5)))
    Quat_identity.

(* ===================================================================== *)
(** ** Rope functions *)
(* ===================================================================== *)

(** [linkLength = self._linkHalfLength + 2 * self._linkRadius] *)
Definition linkLength (self : RigidBodyRopes) : Q :=
  _linkHalfLength self + 2 * _linkRadius self.

(** [numLinks = int(self._ropeLength / linkLength)] *)
Definition numLinks (self : RigidBodyRopes) : Z :=
  py_int (_ropeLength self / linkLength self).

(** The three lists the link loop appends to. *)
Record LinkArrays (A : Type) := mkLinkArrays {
  meshIndices : list Z;
  link_positions : list (Vec3 A);
  link_orientations : list (Quat A)
}.
Arguments mkLinkArrays {A} _ _ _.
Arguments meshIndices {A} _.
Arguments link_positions {A} _.
Arguments link_orientations {A} _.

(** The seven lists the chain-joint loop appends to. *)
Record JointArrays (A : Type) := mkJointArrays {
  jointMeshIndices : list Z;
  jointBody0Indices : list Z;
  jointBody1Indices : list Z;
  jointLocalPos0 : list (Vec3 A);
  jointLocalPos1 : list (Vec3 A);
  jointLocalRot0 : list (Quat A);
  jointLocalRot1 : list (Quat A)
}.
Arguments mkJointArrays {A} _ _ _ _ _ _ _.
Arguments jointMeshIndices {A} _.
Arguments jointBody0Indices {A} _.
Arguments jointBody1Indices {A} _.
Arguments jointLocalPos0 {A} _.
Arguments jointLocalPos1 {A} _.
Arguments jointLocalRot0 {A} _.
Arguments jointLocalRot1 {A} _.

(** The link-to-link loop, lines 346-356 and 503-513: [p0] and [p1] are the
    two local anchor positions the layout appends. *)
Definition chain_joint_loop {A} `{Scalar A} (numLinks : Z) (p0 p1 : Vec3 A) : JointArrays A :=
  fold_left (fun acc linkInd =>
    let body0Index := linkInd in
    let body1Index := (linkInd + 1)%Z in
    mkJointArrays
      (jointMeshIndices acc ++ [0%Z])
      (jointBody0Indices acc ++ [body0Index])
      (jointBody1Indices acc ++ [body1Index])
      (jointLocalPos0 acc ++ [p0])
      (jointLocalPos1 acc ++ [p1])
      (jointLocalRot0 acc ++ [Quat_identity])
      (jointLocalRot1 acc ++ [Quat_identity]))
    (range (numLinks - 1))
    (mkJointArrays [] [] [] [] [] [] []).

(** [_createVerticalRopes(self)] *)
Definition _createVerticalRopes {A} `{Scalar A} (self : RigidBodyRopes) : Build A unit :=
  let linkLength := linkLength self in
  let numLinks := numLinks self in
  let payloadHightHalf := _payloadHight self * 0.5 in
  let capsuleHalf := linkLength * 0.5 in
  let xStart := 0.0 in
  let yStart := - inject_Z (_numRopes self / 2) * _ropeSpacing self in
  let zStart := _initLoadHeight self + payloadHightHalf + capsuleHalf in
  for_in (range (_numRopes self)) (fun ropeInd (_ : unit) =>
    let scopePath := AppendChild (_defaultPrimPath self) ("Rope" +:+ pretty ropeInd) in
    Define scopePath XformPrim ;;
    let instancerPath := AppendChild scopePath "rigidBodyInstancer" in
    let capsulePath := AppendChild instancerPath "capsule" in
    _createCapsule self capsulePath "Z" ;;
    let yPos := yStart + inject_Z ropeInd * _ropeSpacing self in
    (* 1) rope links *)
    let links :=
      fold_left (fun acc linkInd =>
        let z := zStart + inject_Z linkInd * linkLength in
        mkLinkArrays
          (meshIndices acc ++ [0%Z])
          (link_positions acc ++ [mkVec3 (of_Q xStart) (of_Q yPos) (of_Q z)])
          (link_orientations acc ++ [Quat_identity]))
        (range numLinks) (mkLinkArrays [] [] []) in
    (* 2) instancer attributes *)
    Define instancerPath
      (PointInstancerPrim
         (mkPointInstancer [capsulePath] (meshIndices links) (link_positions links)
            (link_orientations links))) ;;
    (* 3) chain joints *)
    let jointInstancerPath := AppendChild scopePath "jointInstancer" in
    let jointPath := AppendChild jointInstancerPath "chainJoints" in
    Define jointPath (JointPrim (_createCableJoint self "Z")) ;;
    let joints :=
      chain_joint_loop numLinks
        (mkVec3 (of_Q 0.0) (of_Q 0.0) (of_Q capsuleHalf))
        (mkVec3 (of_Q 0.0) (of_Q 0.0) (of_Q (- capsuleHalf))) in
    Define jointInstancerPath
      (JointInstancerPrim
         (mkJointInstancer [jointPath] [instancerPath] [instancerPath]
            (jointMeshIndices joints) (jointBody0Indices joints) (jointBody1Indices joints)
            (jointLocalPos0 joints) (jointLocalPos1 joints)
            (jointLocalRot0 joints) (jointLocalRot1 joints))) ;;
    (* 4) cable joint link-payload *)
    let payloadAttachScopePath := AppendChild scopePath "ropePayloadCon" in
    let PayloadJointPath := AppendChild payloadAttachScopePath "PayloadJoint" in
    Define PayloadJointPath (JointPrim (_createCableJoint self "Z")) ;;
    Define payloadAttachScopePath
      (JointInstancerPrim
         (mkJointInstancer [PayloadJointPath] [_payloadPath self] [instancerPath]
            [0%Z] [0%Z] [0%Z]
            [mkVec3 (of_Q 0.0) (of_Q 0.0) (of_Q payloadHightHalf)]
            [mkVec3 (of_Q 0.0) (of_Q 0.0) (of_Q (- capsuleHalf))]
            [Quat_identity] [Quat_identity])) ;;
    (* 5) universal joint table-link *)
    let tableAttachScopePath := AppendChild scopePath "ropeTableCon" in
    let TableJointPath := AppendChild tableAttachScopePath "TableJoint" in
    Define TableJointPath (JointPrim (_createUniJoint self)) ;;
    Define tableAttachScopePath
      (JointInstancerPrim
         (mkJointInstancer [TableJointPath] [instancerPath] [_tableTopPath self]
            [0%Z] [(numLinks - 1)%Z] [0%Z]
            [mkVec3 (of_Q 0.0) (of_Q 0.0) (of_Q capsuleHalf)]
            [mkVec3 (of_Q 0.0) (of_Q 0.0)
               (of_Q (- _tableThickness self * _scaleFactor self * 0.5))]
            [Quat_identity] [Quat_identity])))
    tt ;;
  ret tt.

(** *** Quaternions of [pxr.Gf] over the reals *)

(** [GF_MIN_VECTOR_LENGTH] *)
Definition GF_MIN_VECTOR_LENGTH : R := (/ 10 ^ 10)%R.

Definition Vec3_GetLength (v : Vec3 R) : R :=
  sqrt (vx v * vx v + vy v * vy v + vz v * vz v)%R.

(** [Gf.Vec3f.GetNormalized()]: divide by the length, or by the minimal
    length when the vector is shorter than that. *)
Definition GetNormalized (v : Vec3 R) : Vec3 R :=
  let length := Vec3_GetLength v in
  let d := if Rlt_dec GF_MIN_VECTOR_LENGTH length then length else GF_MIN_VECTOR_LENGTH in
  mkVec3 (vx v / d)%R (vy v / d)%R (vz v / d)%R.

(** [Gf.Quath.__mul__]: the Hamilton product. *)
Definition Quat_mul (p q : Quat R) : Quat R :=
  mkQuat
    (qw p * qw q - (qi p * qi q + qj p * qj q + qk p * qk q))%R
    (qw p * qi q + qi p * qw q + (qj p * qk q - qk p * qj q))%R
    (qw p * qj q + qj p * qw q + (qk p * qi q - qi p * qk q))%R
    (qw p * qk q + qk p * qw q + (qi p * qj q - qj p * qi q))%R.

(** [Gf.Quath.GetInverse()]: the conjugate over the squared length. *)
Definition Quat_GetInverse (q : Quat R) : Quat R :=
  let n := (qw q * qw q + qi q * qi q + qj q * qj q + qk q * qk q)%R in
  mkQuat (qw q / n)%R (- qi q / n)%R (- qj q / n)%R (- qk q / n)%R.

(** [Gf.Quath.Transform(point)]: the imaginary part of
    [q * Quat(0, point) * q.GetInverse()]. *)
Definition Quat_Transform (q : Quat R) (point : Vec3 R) : Vec3 R :=
  let r :=
    Quat_mul (Quat_mul q (mkQuat 0%R (vx point) (vy point) (vz point))) (Quat_GetInverse q) in
  mkVec3 (qi r) (qj r) (qk r).

(** [calculate_orientation(self, angle, axis)] *)
Definition calculate_orientation (angle : R) (axis : Vec3 R) : Quat R :=
  let half_angle := (angle / 2)%R in
  let sin_half_angle := sin half_angle in
  let cos_half_angle := cos half_angle in
  let axis := GetNormalized axis in
  mkQuat cos_half_angle (vx axis * sin_half_angle)%R (vy axis * sin_half_angle)%R
    (vz axis * sin_half_angle)%R.

(** [_createMultiRopes(self, elevation_angle)].  The loop state is the
    function's local variables [x], [y], [z]: unbound ([None]) until the link
    loop has run once. *)
Definition _createMultiRopes (self : RigidBodyRopes) (elevation_angle : R) : Build R unit :=
  let translationAxis := "X" in
  let linkLength := linkLength self in
  let numLinks := numLinks self in
  let payloadHightHalf := _payloadHight self * 0.5 in
  let capsuleHalf := linkLength * 0.5 in
  if bool_decide (_numRopes self = 0%Z) then raise ZeroDivisionError else
  let angle_increment := (2 * PI / IZR (_numRopes self))%R in
  let cos_elevation := cos elevation_angle in
  let sin_elevation := sin elevation_angle in
  for_in (range (_numRopes self)) (fun ropeInd (xyz : option (Vec3 R)) =>
    let scopePath := AppendChild (_defaultPrimPath self) ("Rope" +:+ pretty ropeInd) in
    Define scopePath XformPrim ;;
    let instancerPath := AppendChild scopePath "rigidBodyInstancer" in
    let capsulePath := AppendChild instancerPath "capsule" in
    _createCapsule self capsulePath translationAxis ;;
    (* position of the END link *)
    let angle := (angle_increment * IZR ropeInd)%R in
    let xstartPos :=
      ((Q2R (_payloadRadius self) + Q2R capsuleHalf * cos_elevation) * cos angle)%R in
    let ystartPos :=
      ((Q2R (_payloadRadius self) + Q2R capsuleHalf * cos_elevation) * sin angle)%R in
    let zstartPos := (Q2R (_initLoadHeight self) + Q2R capsuleHalf * sin_elevation)%R in
    let q_z := calculate_orientation angle (mkVec3 0 0 1)%R in
    let q_y := calculate_orientation elevation_angle (mkVec3 0 (-1) 0)%R in
    let orientation := Quat_mul q_z q_y in
    (* 1) rope links *)
    let '(links, xyz) :=
      fold_left (fun '(acc, _) linkInd =>
        let x := (xstartPos + IZR linkInd * Q2R linkLength * cos angle * cos_elevation)%R in
        let y := (ystartPos + IZR linkInd * Q2R linkLength * sin angle * cos_elevation)%R in
        let z := (zstartPos + IZR linkInd * Q2R linkLength * sin_elevation)%R in
        (mkLinkArrays
           (meshIndices acc ++ [0%Z])
           (link_positions acc ++ [mkVec3 x y z])
           (link_orientations acc ++ [orientation]),
         Some (mkVec3 x y z)))
        (range numLinks) (mkLinkArrays [] [] [], xyz) in
    (* 2) instancer attributes *)
    Define instancerPath
      (PointInstancerPrim
         (mkPointInstancer [capsulePath] (meshIndices links) (link_positions links)
            (link_orientations links))) ;;
    (* 3) chain joints *)
    let jointInstancerPath := AppendChild scopePath "jointInstancer" in
    let jointPath := AppendChild jointInstancerPath "chainJoints" in
    Define jointPath (JointPrim (_createCableJoint self translationAxis)) ;;
    let joints :=
      chain_joint_loop numLinks
        (mkVec3 (Q2R capsuleHalf) 0 0)%R
        (mkVec3 (Q2R (- capsuleHalf)) 0 0)%R in
    Define jointInstancerPath
      (JointInstancerPrim
         (mkJointInstancer [jointPath] [instancerPath] [instancerPath]
            (jointMeshIndices joints) (jointBody0Indices joints) (jointBody1Indices joints)
            (jointLocalPos0 joints) (jointLocalPos1 joints)
            (jointLocalRot0 joints) (jointLocalRot1 joints))) ;;
    (* 4) cable joint link-payload *)
    let payloadAttachScopePath := AppendChild scopePath "ropePayloadCon" in
    let PayloadJointPath := AppendChild payloadAttachScopePath "PayloadJoint" in
    Define PayloadJointPath (JointPrim (_createCableJoint self "Z")) ;;
    Define payloadAttachScopePath
      (JointInstancerPrim
         (mkJointInstancer [PayloadJointPath] [_payloadPath self] [instancerPath]
            [0%Z] [0%Z] [0%Z]
            [mkVec3 (Q2R (_payloadRadius self) * cos angle)
                    (Q2R (_payloadRadius self) * sin angle) 0]%R
            [mkVec3 (Q2R (- capsuleHalf)) 0 0]%R
            [orientation] [Quat_identity])) ;;
    (* 5) universal joint link-box *)
    let boxName := "box" +:+ pretty ropeInd +:+ "Actor" in
    let boxPath := AppendChild scopePath boxName in
    match xyz with
    | None => raise UnboundLocalError
    | Some p =>
        let reach := Q2R (capsuleHalf + _boxSize self * _scaleFactor self * 0.5) in
        create_box self ("Rope" +:+ pretty ropeInd) boxName
          (mkVec3 (_boxSize self) (_boxSize self) (_boxSize self))
          (mkVec3 (vx p + reach * cos angle * cos_elevation)
                  (vy p + reach * sin angle * cos_elevation)
                  (vz p + reach * sin_elevation))%R
          orientation ;;
        let boxAttachScopePath := AppendChild scopePath "ropeBoxCon" in
        let BoxJointPath := AppendChild boxAttachScopePath "BoxJoint" in
        Define BoxJointPath (JointPrim (_createUniJoint self)) ;;
        Define boxAttachScopePath
          (JointInstancerPrim
             (mkJointInstancer [BoxJointPath] [instancerPath] [boxPath]
                [0%Z] [(numLinks - 1)%Z] [0%Z]
                [mkVec3 (Q2R capsuleHalf) 0 0]%R
                [mkVec3 (Q2R (- _boxSize self * _scaleFactor self * 0.5)) 0 0]%R
                [Quat_identity] [Quat_identity])) ;;
        ret xyz
    end)
    None ;;
  ret tt.

(** [create(self, stage, num_ropes, rope_length, payload_mass, load_height,
    elevation_angle)].  Line 97 divides by [metersPerUnit * 100]. *)
Definition create (stage : UsdStage) (num_ropes : Z)
    (rope_length payload_mass load_height : Q) (elevation_angle : R) : Build R unit :=
  if Qeq_bool (GetStageMetersPerUnit stage * 100.0) 0 then raise ZeroDivisionError else
  let self := configure stage num_ropes rope_length payload_mass load_height in
  _createPayload self ;;
  if (num_ropes <? 2)%Z then
    create_table self ;;
    _createVerticalRopes self
  else
    _createMultiRopes self elevation_angle.

(* ===================================================================== *)
(** ** Reading prims and stages *)
(* ===================================================================== *)

(** The attribute [name] is authored on [p] with a float of value [q]. *)
Definition attr_is (p : UsdPrim) (name : string) (q : Q) : Prop :=
  exists v, get_attr p name = Some (VtFloat v) /\ v == q.

(** A degree of freedom with the zero-width range [low = high = 0]. *)
Definition locked (p : UsdPrim) (dof : string) : Prop :=
  attr_is p (limit_low dof) 0 /\ attr_is p (limit_high dof) 0.

(** A degree of freedom bounded by [-angle, angle]. *)
Definition cone_limited (p : UsdPrim) (dof : string) (angle : Q) : Prop :=
  attr_is p (limit_low dof) (- angle) /\ attr_is p (limit_high dof) angle.

(** A degree of freedom with the limit schema applied and neither bound
    authored. *)
Definition unlimited (p : UsdPrim) (dof : string) : Prop :=
  ("PhysicsLimitAPI:" +:+ dof) ∈ apiSchemas p /\
  get_attr p (limit_low dof) = None /\ get_attr p (limit_high dof) = None.

(** The applied instances of one schema, in order of application. *)
Definition instances_of (schema : string) (p : UsdPrim) : list string :=
  List.filter (String.prefix (schema +:+ ":")) (apiSchemas p).

(** The translation degrees of freedom other than the one along [axis]. *)
Definition orthogonal_translations (axis : string) : list string :=
  List.filter (fun d => negb (String.eqb d ("trans" +:+ axis))) ["transX"; "transY"; "transZ"].

(** The spring-damper numbers authored on the degree of freedom [dof]:
    range, limit stiffness, damping and contact distance, drive type, force
    cap, damping and stiffness. *)
Definition slide_policy (p : UsdPrim) (dof : string) : list (option VtValue) :=
  map (fun name => get_attr p (name dof))
    [limit_low; limit_high; physxLimit_stiffness; physxLimit_damping;
     physxLimit_contactDistance; drive_type; drive_maxForce; drive_damping; drive_stiffness].

Definition joint_instancers {A} (st : Stage A) : list (SdfPath * JointInstancer A) :=
  omap (fun e => match e.2 with JointInstancerPrim ji => Some (e.1, ji) | _ => None end) st.

Definition point_instancers {A} (st : Stage A) : list (SdfPath * PointInstancer A) :=
  omap (fun e => match e.2 with PointInstancerPrim pi => Some (e.1, pi) | _ => None end) st.

Definition joint_prims {A} (st : Stage A) : list (SdfPath * UsdPrim) :=
  omap (fun e => match e.2 with JointPrim p => Some (e.1, p) | _ => None end) st.

Definition capsules {A} (st : Stage A) : list (SdfPath * Capsule) :=
  omap (fun e => match e.2 with CapsulePrim c => Some (e.1, c) | _ => None end) st.

(** [s] has no slash. *)
Fixpoint slash_free (s : string) : bool :=
  match s with
  | EmptyString => true
  | String c s' => negb (Ascii.eqb c "/"%char) && slash_free s'
  end.

(** Only scopes: every prim of the log is an [Xform]. *)
Definition scopes_only {A} (st : Stage A) : Prop := Forall (fun e => e.2 = XformPrim) st.

(** The scope of rope [ropeInd] and the paths below it. *)
Definition ropeScope (self : RigidBodyRopes) (ropeInd : Z) : SdfPath :=
  AppendChild (_defaultPrimPath self) ("Rope" +:+ pretty ropeInd).

Definition linksPath (self : RigidBodyRopes) (ropeInd : Z) : SdfPath :=
  AppendChild (ropeScope self ropeInd) "rigidBodyInstancer".

(** [i] is an index into a collection of [n] links. *)
Definition link_index (n : Z) (i : Z) : Prop := (0 <= i < n)%Z.

(** Every index of a joint group that points into the link collection
    [links] is an index of one of its [n] links. *)
Definition link_indices_in_range {A} (links : SdfPath) (n : Z) (ji : JointInstancer A) : Prop :=
  (physicsBody0s ji = [links] -> Forall (link_index n) (physicsBody0Indices ji)) /\
  (physicsBody1s ji = [links] -> Forall (link_index n) (physicsBody1Indices ji)).

(** The build was refused: an error, and no instancer authored. *)
Definition rejected {A} (r : Stage A * Res unit) : Prop :=
  (exists e, r.2 = Raise e) /\ point_instancers r.1 = [] /\ joint_instancers r.1 = [].

(** Vectors over the reals. *)
Definition Vec3_add (u v : Vec3 R) : Vec3 R :=
  mkVec3 (vx u + vx v)%R (vy u + vy v)%R (vz u + vz v)%R.

Definition Vec3_scale (k : R) (v : Vec3 R) : Vec3 R :=
  mkVec3 (k * vx v)%R (k * vy v)%R (k * vz v)%R.

(** The azimuth of assembly [i] among [n]. *)
Definition azimuth (n i : Z) : R := (IZR i * (2 * PI) / IZR n)%R.

(** The unit vector at azimuth [a] and elevation [e]. *)
Definition direction (a e : R) : Vec3 R :=
  mkVec3 (cos a * cos e)%R (sin a * cos e)%R (sin e).

(** Distance of a point from the vertical axis through the origin. *)
Definition horizontal_distance (p : Vec3 R) : R := sqrt (vx p * vx p + vy p * vy p)%R.

(** [b], run on [st], returns normally and has authored one group of prims
    per rope index of [ropes], in order, each group satisfying [P]. *)
Definition builds {A} (b : Build A unit) (st : Stage A) (ropes : list Z)
    (P : Z -> Stage A -> Prop) : Prop :=
  exists logs, b st = (st ++ concat logs, Ok tt) /\ Forall2 P ropes logs.

(** *** Closed forms of one loop iteration

    What one iteration of the rope loop authors, with the inner loops
    written as maps over their ranges.  The lemmas [vertical_ropes_log] and
    [multi_ropes_log] below show that the builders author exactly these. *)

Definition chain_joint_arrays {A} `{Scalar A} (numLinks : Z) (p0 p1 : Vec3 A) : JointArrays A :=
  let ks := range (numLinks - 1) in
  mkJointArrays ((fun _ => 0%Z) <$> ks) ks ((fun i => (i + 1)%Z) <$> ks)
    ((fun _ => p0) <$> ks) ((fun _ => p1) <$> ks)
    ((fun _ => Quat_identity) <$> ks) ((fun _ => Quat_identity) <$> ks).

Definition joint_group {A} (prototype body0 body1 : SdfPath) (a : JointArrays A)
    : PrimData A :=
  JointInstancerPrim
    (mkJointInstancer [prototype] [body0] [body1]
       (jointMeshIndices a) (jointBody0Indices a) (jointBody1Indices a)
       (jointLocalPos0 a) (jointLocalPos1 a) (jointLocalRot0 a) (jointLocalRot1 a)).

Definition vertical_link_position {A} `{Scalar A} (self : RigidBodyRopes) (ropeInd linkInd : Z)
    : Vec3 A :=
  let capsuleHalf := linkLength self * 0.5 in
  let yStart := - inject_Z (_numRopes self / 2) * _ropeSpacing self in
  let zStart := _initLoadHeight self + _payloadHight self * 0.5 + capsuleHalf in
  mkVec3 (of_Q 0.0) (of_Q (yStart + inject_Z ropeInd * _ropeSpacing self))
    (of_Q (zStart + inject_Z linkInd * linkLength self)).

Definition vertical_rope_prims {A} `{Scalar A} (self : RigidBodyRopes) (ropeInd : Z) : Stage A :=
  let n := numLinks self in
  let capsuleHalf := linkLength self * 0.5 in
  let scope := ropeScope self ropeInd in
  let links := linksPath self ropeInd in
  let capsulePath := AppendChild links "capsule" in
  let chainPath := AppendChild scope "jointInstancer" in
  let payloadCon := AppendChild scope "ropePayloadCon" in
  let tableCon := AppendChild scope "ropeTableCon" in
  [ (scope, XformPrim);
    (capsulePath,
     CapsulePrim (mkCapsule (_linkHalfLength self) (_linkRadius self) "Z" 0.008));
    (links,
     PointInstancerPrim
       (mkPointInstancer [capsulePath]
          ((fun _ => 0%Z) <$> range n)
          (vertical_link_position self ropeInd <$> range n)
          ((fun _ => Quat_identity) <$> range n)));
    (AppendChild chainPath "chainJoints", JointPrim (_createCableJoint self "Z"));
    (chainPath,
     joint_group (AppendChild chainPath "chainJoints") links links
       (chain_joint_arrays n
          (mkVec3 (of_Q 0.0) (of_Q 0.0) (of_Q capsuleHalf))
          (mkVec3 (of_Q 0.0) (of_Q 0.0) (of_Q (- capsuleHalf)))));
    (AppendChild payloadCon "PayloadJoint", JointPrim (_createCableJoint self "Z"));
    (payloadCon,
     joint_group (AppendChild payloadCon "PayloadJoint") (_payloadPath self) links
       (mkJointArrays [0%Z] [0%Z] [0%Z]
          [mkVec3 (of_Q 0.0) (of_Q 0.0) (of_Q (_payloadHight self * 0.5))]
          [mkVec3 (of_Q 0.0) (of_Q 0.0) (of_Q (- capsuleHalf))]
          [Quat_identity] [Quat_identity]));
    (AppendChild tableCon "TableJoint", JointPrim (_createUniJoint self));
    (tableCon,
     joint_group (AppendChild tableCon "TableJoint") links (_tableTopPath self)
       (mkJointArrays [0%Z] [(n - 1)%Z] [0%Z]
          [mkVec3 (of_Q 0.0) (of_Q 0.0) (of_Q capsuleHalf)]
          [mkVec3 (of_Q 0.0) (of_Q 0.0)
             (of_Q (- _tableThickness self * _scaleFactor self * 0.5))]
          [Quat_identity] [Quat_identity])) ].

(** The orientation [q_z * q_y] of the links of the assembly at azimuth
    [angle]. *)
Definition rope_orientation (angle elevation_angle : R) : Quat R :=
  Quat_mul (calculate_orientation angle (mkVec3 0 0 1)%R)
           (calculate_orientation elevation_angle (mkVec3 0 (-1) 0)%R).

(** [angle = angle_increment * ropeInd] *)
Definition rope_angle (self : RigidBodyRopes) (ropeInd : Z) : R :=
  (2 * PI / IZR (_numRopes self) * IZR ropeInd)%R.

Definition multi_link_position (self : RigidBodyRopes) (elevation_angle : R)
    (ropeInd linkInd : Z) : Vec3 R :=
  let capsuleHalf := linkLength self * 0.5 in
  let angle := rope_angle self ropeInd in
  let reach := (Q2R (_payloadRadius self) + Q2R capsuleHalf * cos elevation_angle)%R in
  mkVec3
    (reach * cos angle
       + IZR linkInd * Q2R (linkLength self) * cos angle * cos elevation_angle)%R
    (reach * sin angle
       + IZR linkInd * Q2R (linkLength self) * sin angle * cos elevation_angle)%R
    (Q2R (_initLoadHeight self) + Q2R capsuleHalf * sin elevation_angle
       + IZR linkInd * Q2R (linkLength self) * sin elevation_angle)%R.

(** The first seven prims of a radial iteration: everything authored before
    the box. *)
Definition multi_rope_prims_head (self : RigidBodyRopes) (elevation_angle : R) (ropeInd : Z)
    : Stage R :=
  let n := numLinks self in
  let capsuleHalf := linkLength self * 0.5 in
  let angle := rope_angle self ropeInd in
  let orientation := rope_orientation angle elevation_angle in
  let scope := ropeScope self ropeInd in
  let links := linksPath self ropeInd in
  let capsulePath := AppendChild links "capsule" in
  let chainPath := AppendChild scope "jointInstancer" in
  let payloadCon := AppendChild scope "ropePayloadCon" in
  [ (scope, XformPrim);
    (capsulePath,
     CapsulePrim (mkCapsule (_linkHalfLength self) (_linkRadius self) "X" 0.008));
    (links,
     PointInstancerPrim
       (mkPointInstancer [capsulePath]
          ((fun _ => 0%Z) <$> range n)
          (multi_link_position self elevation_angle ropeInd <$> range n)
          ((fun _ => orientation) <$> range n)));
    (AppendChild chainPath "chainJoints", JointPrim (_createCableJoint self "X"));
    (chainPath,
     joint_group (AppendChild chainPath "chainJoints") links links
       (chain_joint_arrays n
          (mkVec3 (Q2R capsuleHalf) 0 0)%R
          (mkVec3 (Q2R (- capsuleHalf)) 0 0)%R));
    (AppendChild payloadCon "PayloadJoint", JointPrim (_createCableJoint self "Z"));
    (payloadCon,
     joint_group (AppendChild payloadCon "PayloadJoint") (_payloadPath self) links
       (mkJointArrays [0%Z] [0%Z] [0%Z]
          [mkVec3 (Q2R (_payloadRadius self) * cos angle)
                  (Q2R (_payloadRadius self) * sin angle) 0]%R
          [mkVec3 (Q2R (- capsuleHalf)) 0 0]%R
          [orientation] [Quat_identity])) ].

(** The rest of a radial iteration: the box (after an [Xform] at its path
    when [fresh], that is when no prim was there), and the box joint. *)
Definition multi_rope_prims_tail (self : RigidBodyRopes) (elevation_angle : R) (ropeInd : Z)
    (fresh : bool) : Stage R :=
  let n := numLinks self in
  let capsuleHalf := linkLength self * 0.5 in
  let angle := rope_angle self ropeInd in
  let orientation := rope_orientation angle elevation_angle in
  let scope := ropeScope self ropeInd in
  let links := linksPath self ropeInd in
  let boxPath := AppendChild scope ("box" +:+ pretty ropeInd +:+ "Actor") in
  let boxCon := AppendChild scope "ropeBoxCon" in
  let last := multi_link_position self elevation_angle ropeInd (n - 1) in
  let reach := Q2R (capsuleHalf + _boxSize self * _scaleFactor self * 0.5) in
  (if fresh then [(boxPath, XformPrim)] else []) ++
  [ (boxPath,
     CubePrim
       (mkCube
          (mkVec3 (vx last + reach * cos angle * cos elevation_angle)
                  (vy last + reach * sin angle * cos elevation_angle)
                  (vz last + reach * sin elevation_angle))%R
          orientation
          (orient_dim self (mkVec3 (_boxSize self) (_boxSize self) (_boxSize self)))
          1.0 false));
    (AppendChild boxCon "BoxJoint", JointPrim (_createUniJoint self));
    (boxCon,
     joint_group (AppendChild boxCon "BoxJoint") links boxPath
       (mkJointArrays [0%Z] [(n - 1)%Z] [0%Z]
          [mkVec3 (Q2R capsuleHalf) 0 0]%R
          [mkVec3 (Q2R (- _boxSize self * _scaleFactor self * 0.5)) 0 0]%R
          [Quat_identity] [Quat_identity])) ].

Definition multi_rope_prims (self : RigidBodyRopes) (elevation_angle : R) (ropeInd : Z)
    (fresh : bool) : Stage R :=
  multi_rope_prims_head self elevation_angle ropeInd
    ++ multi_rope_prims_tail self elevation_angle ropeInd fresh.

(* ===================================================================== *)
(** ** Properties of one assembly *)
(* ===================================================================== *)

(** The joint groups of assembly [ropeInd] are, in this order, the chain
    group, the payload attachment and the structure attachment. *)
Definition assembly_groups {A} (self : RigidBodyRopes) (ropeInd : Z) (prims : Stage A)
    (chain payloadCon anchorCon : JointInstancer A) : Prop :=
  let scope := ropeScope self ropeInd in
  exists anchorName,
    joint_instancers prims =
      [ (AppendChild scope "jointInstancer", chain);
        (AppendChild scope "ropePayloadCon", payloadCon);
        (AppendChild scope anchorName, anchorCon) ].

(** The link collection of assembly [ropeInd] is [links]. *)
Definition assembly_links {A} (self : RigidBodyRopes) (ropeInd : Z) (prims : Stage A)
    (links : PointInstancer A) : Prop :=
  point_instancers prims = [(linksPath self ropeInd, links)] /\
  length (protoIndices links) = length (positions links) /\
  length (orientations links) = length (positions links).

(** The joints of the group connect bodies of [body0] to bodies of [body1]. *)
Definition attaches {A} (ji : JointInstancer A) (body0 body1 : SdfPath) : Prop :=
  physicsBody0s ji = [body0] /\ physicsBody1s ji = [body1].

(** The number of joints of a group. *)
Definition joint_count {A} (ji : JointInstancer A) : nat := length (physicsProtoIndices ji).

(** The arrays of a group are parallel. *)
Definition parallel_arrays {A} (ji : JointInstancer A) : Prop :=
  length (physicsBody0Indices ji) = joint_count ji /\
  length (physicsBody1Indices ji) = joint_count ji /\
  length (physicsLocalPos0s ji) = joint_count ji /\
  length (physicsLocalPos1s ji) = joint_count ji /\
  length (physicsLocalRot0s ji) = joint_count ji /\
  length (physicsLocalRot1s ji) = joint_count ji.

(** The box of assembly [ropeInd] in the radial layout. *)
Definition boxPath (self : RigidBodyRopes) (ropeInd : Z) : SdfPath :=
  AppendChild (ropeScope self ropeInd) ("box" +:+ pretty ropeInd +:+ "Actor").

(** Joint counts of one assembly whose structure-side body is [anchor]:
    [numLinks - 1] chain joints, joint [i] from link [i] to link [i + 1],
    and one joint in each attachment group, from the payload to link 0 and
    from link [numLinks - 1] to the anchor. *)
Definition joint_counts {A} (self : RigidBodyRopes) (anchor : Z -> SdfPath) (ropeInd : Z)
    (prims : Stage A) : Prop :=
  let links := linksPath self ropeInd in
  let n := numLinks self in
  exists pi chain payloadCon anchorCon,
    assembly_links self ropeInd prims pi /\
    Z.of_nat (length (positions pi)) = n /\
    assembly_groups self ropeInd prims chain payloadCon anchorCon /\
    attaches chain links links /\
    attaches payloadCon (_payloadPath self) links /\
    attaches anchorCon links (anchor ropeInd) /\
    parallel_arrays chain /\ parallel_arrays payloadCon /\ parallel_arrays anchorCon /\
    Z.of_nat (joint_count chain) = (n - 1)%Z /\
    physicsBody0Indices chain = range (n - 1) /\
    physicsBody1Indices chain = (fun i => (i + 1)%Z) <$> range (n - 1) /\
    joint_count payloadCon = 1%nat /\
    joint_count anchorCon = 1%nat /\
    physicsBody1Indices payloadCon = [0%Z] /\
    physicsBody0Indices anchorCon = [(n - 1)%Z] /\
    (n = 1%Z ->
       joint_count chain = 0%nat /\
       physicsBody1Indices payloadCon = [0%Z] /\
       physicsBody0Indices anchorCon = [0%Z]).

(** Link indices of one assembly: those of the chain group, the payload
    attachment (link 0) and the structure attachment (link [numLinks - 1]),
    all within the link range. *)
Definition link_indices_ok {A} (self : RigidBodyRopes) (ropeInd : Z) (prims : Stage A) : Prop :=
  let links := linksPath self ropeInd in
  let n := numLinks self in
  exists pi chain payloadCon anchorCon anchor,
    assembly_links self ropeInd prims pi /\
    Z.of_nat (length (positions pi)) = n /\
    assembly_groups self ropeInd prims chain payloadCon anchorCon /\
    attaches chain links links /\
    attaches payloadCon (_payloadPath self) links /\
    attaches anchorCon links anchor /\
    physicsBody0Indices chain = range (n - 1) /\
    physicsBody1Indices chain = (fun i => (i + 1)%Z) <$> range (n - 1) /\
    physicsBody1Indices payloadCon = [0%Z] /\
    physicsBody0Indices anchorCon = [(n - 1)%Z] /\
    Forall (link_index n) (physicsBody0Indices chain) /\
    Forall (link_index n) (physicsBody1Indices chain) /\
    Forall (link_index n) (physicsBody1Indices payloadCon) /\
    Forall (link_index n) (physicsBody0Indices anchorCon) /\
    Forall (fun e => link_indices_in_range links n e.2) (joint_instancers prims).

(** Archetypes of one assembly: the prototypes of the chain group and of the
    payload attachment are cable joints (the chain's along [chainAxis]), the
    prototype of the structure attachment is a universal joint. *)
Definition archetypes {A} (self : RigidBodyRopes) (chainAxis : string) (ropeInd : Z)
    (prims : Stage A) : Prop :=
  exists chain payloadCon anchorCon chainJoints PayloadJoint AnchorJoint,
    assembly_groups self ropeInd prims chain payloadCon anchorCon /\
    joint_prims prims =
      [ (chainJoints, _createCableJoint self chainAxis);
        (PayloadJoint, _createCableJoint self "Z");
        (AnchorJoint, _createUniJoint self) ] /\
    physicsPrototypes chain = [chainJoints] /\
    physicsPrototypes payloadCon = [PayloadJoint] /\
    physicsPrototypes anchorCon = [AnchorJoint] /\
    Forall (fun i => i = 0%Z) (physicsProtoIndices chain) /\
    physicsProtoIndices payloadCon = [0%Z] /\
    physicsProtoIndices anchorCon = [0%Z] /\
    (exists anchor, attaches payloadCon (_payloadPath self) (linksPath self ropeInd) /\
                    attaches anchorCon (linksPath self ropeInd) anchor).

(** Positions of the links of one radial assembly: the first link lies at
    the azimuth [a] of the assembly, at the stated distance from the
    vertical axis, and link [k] is [k] pitches further along the direction of
    the assembly. *)
Definition radial_positions (self : RigidBodyRopes) (elevation_angle : R) (ropeInd : Z)
    (prims : Stage R) : Prop :=
  let a := azimuth (_numRopes self) ropeInd in
  exists links first,
    assembly_links self ropeInd prims links /\
    positions links !! 0%nat = Some first /\
    vx first = (horizontal_distance first * cos a)%R /\
    vy first = (horizontal_distance first * sin a)%R /\
    horizontal_distance first
      = (Q2R (_payloadRadius self) + Q2R (linkLength self * 0.5) * cos elevation_angle)%R /\
    forall k : Z, (0 <= k < numLinks self)%Z ->
      positions links !! Z.to_nat k
        = Some (Vec3_add first
                  (Vec3_scale (IZR k * Q2R (linkLength self)) (direction a elevation_angle))).

(** The yaw by [a]: the rotation by [a] about the vertical axis [(0, 0, 1)]. *)
Definition yaw (a : R) : Quat R := calculate_orientation a (mkVec3 0 0 1)%R.

(** The pitch by [e] about the horizontal axis that the yaw by [a] makes of
    the axis [(0, -1, 0)]. *)
Definition pitch_after_yaw (a e : R) : Quat R :=
  calculate_orientation e (Quat_Transform (yaw a) (mkVec3 0 (-1) 0)%R).

(** Orientation of the links of one radial assembly. *)
Definition radial_orientation (self : RigidBodyRopes) (elevation_angle : R) (ropeInd : Z)
    (prims : Stage R) : Prop :=
  let a := azimuth (_numRopes self) ropeInd in
  let q := Quat_mul (pitch_after_yaw a elevation_angle) (yaw a) in
  exists links,
    assembly_links self ropeInd prims links /\
    orientations links = replicate (Z.to_nat (numLinks self)) q /\
    q = rope_orientation a elevation_angle /\
    (forall v, Quat_Transform q v
               = Quat_Transform (pitch_after_yaw a elevation_angle) (Quat_Transform (yaw a) v)) /\
    Quat_Transform q (mkVec3 1 0 0)%R = direction a elevation_angle.

(** The payload attachment of one radial assembly. *)
Definition radial_payload_anchor (self : RigidBodyRopes) (elevation_angle : R) (ropeInd : Z)
    (prims : Stage R) : Prop :=
  let a := azimuth (_numRopes self) ropeInd in
  let q := Quat_mul (pitch_after_yaw a elevation_angle) (yaw a) in
  exists links chain payloadCon anchorCon,
    assembly_links self ropeInd prims links /\
    assembly_groups self ropeInd prims chain payloadCon anchorCon /\
    attaches payloadCon (_payloadPath self) (linksPath self ropeInd) /\
    physicsLocalPos0s payloadCon
      = [mkVec3 (Q2R (_payloadRadius self) * cos a) (Q2R (_payloadRadius self) * sin a) 0]%R /\
    physicsLocalRot0s payloadCon = [q] /\
    Forall (fun o => o = q) (orientations links) /\
    orientations links <> [] /\
    physicsLocalPos1s payloadCon = [mkVec3 (- Q2R (linkLength self * 0.5)) 0 0]%R /\
    physicsLocalRot1s payloadCon = [Quat_identity] /\
    (sin (a / 2) <> 0 \/ sin (elevation_angle / 2) <> 0 -> q <> Quat_identity)%R.

(** The anchor joint of one radial assembly, against the axis of its links:
    the links lie along X, the joint frame on the link is the identity, and
    the rotation about the axis of the links is bounded, not locked. *)
Definition radial_anchor_joint (self : RigidBodyRopes) (ropeInd : Z) (prims : Stage R) : Prop :=
  exists chain payloadCon anchorCon capsulePath capsule chainJoints BoxJoint joint,
    assembly_groups self ropeInd prims chain payloadCon anchorCon /\
    capsules prims = [(capsulePath, capsule)] /\
    capsule_axis capsule = "X" /\
    physicsPrototypes chain = [chainJoints] /\
    (chainJoints, _createCableJoint self "X") ∈ joint_prims prims /\
    instances_of "PhysicsDriveAPI" (_createCableJoint self "X") = ["PhysicsDriveAPI:transX"] /\
    physicsPrototypes anchorCon = [BoxJoint] /\
    (BoxJoint, joint) ∈ joint_prims prims /\
    joint = _createUniJoint self /\
    physicsLocalRot0s anchorCon = [Quat_identity] /\
    locked joint "rotZ" /\
    cone_limited joint "rotX" 160 /\
    cone_limited joint "rotY" 160 /\
    ~ locked joint ("rot" +:+ capsule_axis capsule).

(** The prims [_createPayload] authors. *)
Definition payload_prims {A} (self : RigidBodyRopes) : Stage A :=
  [ (_payloadXform self, XformPrim);
    (_payloadPath self,
     CylinderPrim (mkCylinder (_payloadPos self) None (_payloadRadius self)
       (_payloadHight self) true 0.01 (_payloadMass self))) ].

(** No joint prototype among [prims] is the fixed joint. *)
Definition no_fixed_joint {A} (self : RigidBodyRopes) (prims : Stage A) : Prop :=
  Forall (fun e => e.2 <> _createFixJoint self) (joint_prims prims).

(** Some joint group among [prims] carries an index that points outside the
    [n] links of [links]. *)
Definition some_link_index_out_of_range {A} (links : SdfPath) (n : Z) (prims : Stage A) : Prop :=
  exists path ji, (path, ji) ∈ joint_instancers prims /\ ~ link_indices_in_range links n ji.

(** A stage in centimetres with Z up, rooted at [/World]. *)
Definition demo_stage : UsdStage := mkStage ["World"] 0.01 UpZ.

(** An assembly without links: empty link and chain arrays, and still one
    joint in each attachment group, on the link indices 0 and -1. *)
Definition empty_assembly {A} (self : RigidBodyRopes) (ropeInd : Z) (prims : Stage A) : Prop :=
  exists pi chain payloadCon anchorCon,
    assembly_links self ropeInd prims pi /\
    positions pi = [] /\
    assembly_groups self ropeInd prims chain payloadCon anchorCon /\
    joint_count chain = 0%nat /\
    joint_count payloadCon = 1%nat /\
    joint_count anchorCon = 1%nat /\
    physicsBody1Indices payloadCon = [0%Z] /\
    physicsBody0Indices anchorCon = [(-1)%Z].

(** The object [create] configures on [demo_stage] for a payload of mass 1
    hanging at height 2. *)
Definition demo_config (num_ropes : Z) (rope_length : Q) : RigidBodyRopes :=
  configure demo_stage num_ropes rope_length 1 2.

(* ===================================================================== *)
(** ** The remaining helper of the file, and further vocabulary *)
(* ===================================================================== *)

(** [orient_pos(self, vec)] *)
Definition orient_pos (self : RigidBodyRopes) (vec : Vec3 Q) : Vec3 Q :=
  let at_ i :=
    let curOrientation := nth i (_orientation self) O in
    let newVec_i := Vec3_get vec curOrientation in
    let newVec_i :=
      if Nat.eqb curOrientation 2 then newVec_i + _floorOffset self else newVec_i in
    newVec_i * _scaleFactor self in
  mkVec3 (at_ 0%nat) (at_ 1%nat) (at_ 2%nat).

Definition cubes {A} (st : Stage A) : list (SdfPath * Cube A) :=
  omap (fun e => match e.2 with CubePrim c => Some (e.1, c) | _ => None end) st.

(** A degree of freedom whose authored range is inverted, [high < low]. *)
Definition inverted (p : UsdPrim) (dof : string) : Prop :=
  exists low high,
    attr_is p (limit_low dof) low /\ attr_is p (limit_high dof) high /\ high < low.

(** The squared length of a quaternion and of a vector. *)
Definition Quat_norm2 (q : Quat R) : R :=
  (qw q * qw q + qi q * qi q + qj q * qj q + qk q * qk q)%R.

Definition Vec3_norm2 (v : Vec3 R) : R := (vx v * vx v + vy v * vy v + vz v * vz v)%R.

(** The radial payload attachment against the chain: which translation each
    prototype lets slide, on links that lie along X and with the joint frame
    on the link being the link's own. *)
Definition radial_payload_slide (self : RigidBodyRopes) (ropeInd : Z) (prims : Stage R) : Prop :=
  exists chain payloadCon anchorCon capsulePath capsule chainJoints PayloadJoint chainProto payProto,
    assembly_groups self ropeInd prims chain payloadCon anchorCon /\
    capsules prims = [(capsulePath, capsule)] /\
    capsule_axis capsule = "X" /\
    physicsPrototypes chain = [chainJoints] /\
    (chainJoints, chainProto) ∈ joint_prims prims /\
    physicsPrototypes payloadCon = [PayloadJoint] /\
    (PayloadJoint, payProto) ∈ joint_prims prims /\
    physicsBody1s payloadCon = [linksPath self ropeInd] /\
    physicsLocalRot1s payloadCon = [Quat_identity] /\
    instances_of "PhysicsDriveAPI" chainProto = ["PhysicsDriveAPI:transX"] /\
    locked chainProto "transY" /\ locked chainProto "transZ" /\
    instances_of "PhysicsDriveAPI" payProto = ["PhysicsDriveAPI:transZ"] /\
    locked payProto "transX" /\ locked payProto "transY".

(** Cross and dot product, and the rotation of [v] by [angle] about the unit
    vector [n] (Rodrigues' formula). *)
Definition Vec3_cross (u v : Vec3 R) : Vec3 R :=
  mkVec3 (vy u * vz v - vz u * vy v)%R (vz u * vx v - vx u * vz v)%R
         (vx u * vy v - vy u * vx v)%R.

Definition Vec3_dot (u v : Vec3 R) : R := (vx u * vx v + vy u * vy v + vz u * vz v)%R.

Definition rotate_about (n : Vec3 R) (angle : R) (v : Vec3 R) : Vec3 R :=
  Vec3_add (Vec3_add (Vec3_scale (cos angle) v) (Vec3_scale (sin angle) (Vec3_cross n v)))
           (Vec3_scale (Vec3_dot n v * (1 - cos angle)) n).

(** An assembly of the vertical layout without links: empty link arrays
    and an empty chain group, and still both attachment joints, the
    payload's on link index 0 and the table's on link index
    [numLinks - 1], which is negative. *)
Definition linkless_assembly {A} (self : RigidBodyRopes) (ropeInd : Z) (prims : Stage A)
    : Prop :=
  exists pi chain payloadCon tableCon,
    assembly_links self ropeInd prims pi /\
    protoIndices pi = [] /\ positions pi = [] /\ orientations pi = [] /\
    assembly_groups self ropeInd prims chain payloadCon tableCon /\
    joint_count chain = 0%nat /\
    physicsBody0Indices chain = [] /\ physicsBody1Indices chain = [] /\
    attaches payloadCon (_payloadPath self) (linksPath self ropeInd) /\
    attaches tableCon (linksPath self ropeInd) (_tableTopPath self) /\
    joint_count payloadCon = 1%nat /\
    joint_count tableCon = 1%nat /\
    physicsBody1Indices payloadCon = [0%Z] /\
    physicsBody0Indices tableCon = [(numLinks self - 1)%Z] /\
    (numLinks self - 1 < 0)%Z.

(** *** Bodies and joint frames in world space *)

Definition Vec3_Q2R (v : Vec3 Q) : Vec3 R := mkVec3 (Q2R (vx v)) (Q2R (vy v)) (Q2R (vz v)).

Definition Vec3_zero : Vec3 R := mkVec3 0%R 0%R 0%R.

(** Position and orientation of a body. *)
Definition Pose : Type := Vec3 R * Quat R.

(** A point and a frame given in the local space of a body, in world space. *)
Definition world_anchor (body : Pose) (localPos : Vec3 R) : Vec3 R :=
  Vec3_add body.1 (Quat_Transform body.2 localPos).

Definition world_frame (body : Pose) (localRot : Quat R) : Quat R := Quat_mul body.2 localRot.

(** The pose of body [b] of a link collection, and of the only body (index 0)
    of a single prim. *)
Definition link_pose (links : PointInstancer R) (b : Z) : option Pose :=
  if decide (0 <= b)%Z then
    match positions links !! Z.to_nat b, orientations links !! Z.to_nat b with
    | Some p, Some q => Some (p, q)
    | _, _ => None
    end
  else None.

Definition single_pose (body : Pose) (b : Z) : option Pose :=
  if decide (b = 0%Z) then Some body else None.

(** Every joint of the group has its two bodies, and its frame on body 1 is
    the frame on body 0 moved by [d] in world space, with the same
    orientation.  For [d = 0] the two frames coincide. *)
Definition anchors_apart (d : Vec3 R) (pose0 pose1 : Z -> option Pose)
    (ji : JointInstancer R) : Prop :=
  forall j : nat, (j < joint_count ji)%nat ->
    exists b0 b1 l0 l1 r0 r1 P0 P1,
      physicsBody0Indices ji !! j = Some b0 /\
      physicsBody1Indices ji !! j = Some b1 /\
      physicsLocalPos0s ji !! j = Some l0 /\
      physicsLocalPos1s ji !! j = Some l1 /\
      physicsLocalRot0s ji !! j = Some r0 /\
      physicsLocalRot1s ji !! j = Some r1 /\
      pose0 b0 = Some P0 /\
      pose1 b1 = Some P1 /\
      world_anchor P1 l1 = Vec3_add (world_anchor P0 l0) d /\
      world_frame P0 r0 = world_frame P1 r1.

(** The payload as [_createPayload] places it: at [_payloadPos], not turned. *)
Definition payload_pose (self : RigidBodyRopes) : Pose :=
  (Vec3_Q2R (_payloadPos self), Quat_identity).

Definition cube_pose (c : Cube R) : Pose := (cube_translate _ c, cube_orient _ c).

(** The part of the rope length the links do not cover. *)
Definition rope_slack (self : RigidBodyRopes) : Q :=
  _ropeLength self - inject_Z (numLinks self) * linkLength self.

(** One vertical rope under the table [tableTop]: the frames of every chain
    joint and of the payload attachment coincide in world space, and the
    frame of the table attachment on the table lies the slack above its
    frame on the last link. *)
Definition vertical_frames (self : RigidBodyRopes) (tableTop : Cube R) (ropeInd : Z)
    (prims : Stage R) : Prop :=
  exists links chain payloadCon tableCon,
    assembly_links self ropeInd prims links /\
    assembly_groups self ropeInd prims chain payloadCon tableCon /\
    attaches chain (linksPath self ropeInd) (linksPath self ropeInd) /\
    attaches payloadCon (_payloadPath self) (linksPath self ropeInd) /\
    attaches tableCon (linksPath self ropeInd) (_tableTopPath self) /\
    anchors_apart Vec3_zero (link_pose links) (link_pose links) chain /\
    anchors_apart Vec3_zero (single_pose (payload_pose self)) (link_pose links) payloadCon /\
    anchors_apart (mkVec3 0%R 0%R (Q2R (rope_slack self)))
      (link_pose links) (single_pose (cube_pose tableTop)) tableCon.

(** One radial rope: the box is turned like the links, and the frames of
    every chain joint, of the payload attachment and of the box attachment
    coincide in world space. *)
Definition radial_frames (self : RigidBodyRopes) (ropeInd : Z) (prims : Stage R) : Prop :=
  exists links chain payloadCon boxCon boxPath box,
    assembly_links self ropeInd prims links /\
    assembly_groups self ropeInd prims chain payloadCon boxCon /\
    cubes prims = [(boxPath, box)] /\
    attaches chain (linksPath self ropeInd) (linksPath self ropeInd) /\
    attaches payloadCon (_payloadPath self) (linksPath self ropeInd) /\
    attaches boxCon (linksPath self ropeInd) boxPath /\
    Forall (fun o => o = cube_orient _ box /\ Quat_norm2 o = 1%R) (orientations links) /\
    anchors_apart Vec3_zero (link_pose links) (link_pose links) chain /\
    anchors_apart Vec3_zero (single_pose (payload_pose self)) (link_pose links) payloadCon /\
    anchors_apart Vec3_zero (link_pose links) (single_pose (cube_pose box)) boxCon.

(* ===================================================================== *)
(** ** Proof steps used more than once *)
(* ===================================================================== *)

Ltac array_lengths :=
  cbn [length positions orientations protoIndices physicsProtoIndices physicsBody0Indices
       physicsBody1Indices physicsLocalPos0s physicsLocalPos1s physicsLocalRot0s
       physicsLocalRot1s jointMeshIndices jointBody0Indices jointBody1Indices jointLocalPos0
       jointLocalPos1 jointLocalRot0 jointLocalRot1 chain_joint_arrays];
  unfold range; rewrite ?length_fmap, ?length_seqZ; try reflexivity; try lia.

Ltac link_groups_in_range :=
  match goal with
  | |- Forall _ ?l =>
      let E := fresh in
      eassert (l = [_; _; _]) as E by reflexivity; rewrite E; clear E
  end;
  repeat (apply List.Forall_cons; [split; intros _; cbn|]);
  try apply List.Forall_nil;
  first [assumption | by apply Forall_singleton].

Ltac cable_axis_cases axis :=
  unfold _createCableJoint;
  destruct (String.eqb axis "Z") eqn:?; [| destruct (String.eqb axis "X") eqn:?].

Ltac attr_value v := exists v; split; [vm_compute; reflexivity | try reflexivity].

Ltac unlimited_dof :=
  split; [apply list_elem_of_In; vm_compute; tauto | split; vm_compute; reflexivity].

Ltac single_joint j Hj :=
  intros j Hj; unfold joint_count in Hj; cbn in Hj;
  assert (j = 0%nat) as -> by lia;
  cbn [physicsBody0Indices physicsBody1Indices physicsLocalPos0s physicsLocalPos1s
       physicsLocalRot0s physicsLocalRot1s jointBody0Indices jointBody1Indices
       jointLocalPos0 jointLocalPos1 jointLocalRot0 jointLocalRot1].

(* ===================================================================== *)
(** ** The loops, as maps *)
(* ===================================================================== *)

Section loops.
Context {A : Type} `{Scalar A}.

Lemma chain_joint_fold (p0 p1 : Vec3 A) (ks : list Z) (acc : JointArrays A) :
  fold_left (fun acc linkInd =>
    mkJointArrays
      (jointMeshIndices acc ++ [0%Z])
      (jointBody0Indices acc ++ [linkInd])
      (jointBody1Indices acc ++ [(linkInd + 1)%Z])
      (jointLocalPos0 acc ++ [p0])
      (jointLocalPos1 acc ++ [p1])
      (jointLocalRot0 acc ++ [Quat_identity])
      (jointLocalRot1 acc ++ [Quat_identity])) ks acc
  = mkJointArrays
      (jointMeshIndices acc ++ ((fun _ => 0%Z) <$> ks))
      (jointBody0Indices acc ++ ks)
      (jointBody1Indices acc ++ ((fun i => (i + 1)%Z) <$> ks))
      (jointLocalPos0 acc ++ ((fun _ => p0) <$> ks))
      (jointLocalPos1 acc ++ ((fun _ => p1) <$> ks))
      (jointLocalRot0 acc ++ ((fun _ => Quat_identity) <$> ks))
      (jointLocalRot1 acc ++ ((fun _ => Quat_identity) <$> ks)).
Proof.
  revert acc. induction ks as [|k ks IH]; intros acc.
  - destruct acc; simpl. by rewrite !app_nil_r.
  - simpl. rewrite IH. simpl. by rewrite <- !app_assoc.
Qed.

Lemma chain_joint_loop_arrays (n : Z) (p0 p1 : Vec3 A) :
  chain_joint_loop n p0 p1 = chain_joint_arrays n p0 p1.
Proof. unfold chain_joint_loop. by rewrite chain_joint_fold. Qed.

Lemma link_fold (pos : Z -> Vec3 A) (q : Quat A) (ks : list Z) (acc : LinkArrays A) :
  fold_left (fun acc linkInd =>
    mkLinkArrays (meshIndices acc ++ [0%Z]) (link_positions acc ++ [pos linkInd])
      (link_orientations acc ++ [q])) ks acc
  = mkLinkArrays
      (meshIndices acc ++ ((fun _ => 0%Z) <$> ks))
      (link_positions acc ++ (pos <$> ks))
      (link_orientations acc ++ ((fun _ => q) <$> ks)).
Proof.
  revert acc. induction ks as [|k ks IH]; intros acc.
  - destruct acc; simpl. by rewrite !app_nil_r.
  - simpl. rewrite IH. simpl. by rewrite <- !app_assoc.
Qed.

(** The link loop of the radial layout also rebinds [x], [y], [z]. *)
Lemma link_fold_bind (pos : Z -> Vec3 A) (q : Quat A) (ks : list Z)
    (acc : LinkArrays A) (xyz : option (Vec3 A)) :
  fold_left (fun '(acc, _) linkInd =>
    (mkLinkArrays (meshIndices acc ++ [0%Z]) (link_positions acc ++ [pos linkInd])
       (link_orientations acc ++ [q]),
     Some (pos linkInd))) ks (acc, xyz)
  = (mkLinkArrays
       (meshIndices acc ++ ((fun _ => 0%Z) <$> ks))
       (link_positions acc ++ (pos <$> ks))
       (link_orientations acc ++ ((fun _ => q) <$> ks)),
     from_option Some xyz (pos <$> last ks)).
Proof.
  revert acc xyz. induction ks as [|k ks IH]; intros acc xyz.
  - destruct acc, xyz; simpl; by rewrite !app_nil_r.
  - simpl fold_left. rewrite IH. simpl. rewrite <- !app_assoc. f_equal.
    destruct ks as [|k' ks]; [done|].
    change (last (k :: k' :: ks)) with (last (k' :: ks)).
    destruct (last (k' :: ks)) eqn:E; [done|]. by apply last_None in E.
Qed.

Lemma last_range (n : Z) : (1 <= n)%Z -> last (range n) = Some (n - 1)%Z.
Proof.
  intros Hn. unfold range. rewrite last_lookup, length_seqZ.
  rewrite lookup_seqZ. split; lia.
Qed.

Lemma for_in_log {S} (P : Z -> Stage A -> Prop) (body : Z -> S -> Build A S) (xs : list Z) :
  (forall i s st, exists prims s', body i s st = (st ++ prims, Ok s') /\ P i prims) ->
  forall s st, exists logs s',
    for_in xs body s st = (st ++ concat logs, Ok s') /\ Forall2 P xs logs.
Proof.
  intros Hbody. induction xs as [|i xs IH]; intros s st.
  - exists [], s. simpl. rewrite app_nil_r. split; [done | constructor].
  - destruct (Hbody i s st) as (prims & s1 & Hrun & HP).
    destruct (IH s1 (st ++ prims)) as (logs & s2 & Hrest & Hall).
    exists (prims :: logs), s2. simpl. unfold bind. rewrite Hrun, Hrest.
    rewrite <- app_assoc. split; [done | by constructor].
Qed.
End loops.

(* ===================================================================== *)
(** ** Path segments and [get_path] *)
(* ===================================================================== *)

Lemma split_slash_free (s : string) : slash_free s = true -> split_slash s = [s].
Proof.
  induction s as [|c s IH]; simpl; [done|].
  intros [Hc Hs]%andb_prop. apply negb_true_iff in Hc. by rewrite Hc, IH.
Qed.

Lemma segments_one (s : string) :
  s <> EmptyString -> slash_free s = true -> segments s = [s].
Proof.
  intros Hne Hs. unfold segments. rewrite split_slash_free by done.
  by rewrite filter_cons_True, filter_nil.
Qed.

Lemma split_slash_pieces (s : string) :
  split_slash s <> [] /\ Forall (fun seg => slash_free seg = true) (split_slash s).
Proof.
  induction s as [|c s [Hne IH]]; simpl; [by split; [|repeat constructor]|].
  destruct (Ascii.eqb c "/") eqn:Hc.
  - split; [done|]. by constructor.
  - destruct (split_slash s) as [|seg segs]; [done|]. split; [done|].
    apply Forall_cons in IH as [Hseg Hsegs]. constructor; [|done].
    simpl. by rewrite Hc, Hseg.
Qed.

Lemma segments_pieces (rootPath : string) :
  Forall (fun seg => seg <> EmptyString /\ slash_free seg = true) (segments rootPath).
Proof.
  unfold segments. destruct (split_slash_pieces rootPath) as [_ Hall].
  induction Hall as [|seg segs Hseg _ IH]; [constructor|].
  destruct (decide (seg <> EmptyString)).
  - rewrite filter_cons_True by done. by constructor.
  - by rewrite filter_cons_False.
Qed.

Lemma slash_free_app (s1 s2 : string) :
  slash_free (s1 +:+ s2) = slash_free s1 && slash_free s2.
Proof. induction s1 as [|c s1 IH]; simpl; [done|]. by rewrite IH, andb_assoc. Qed.

Lemma pretty_N_go_slash_free (x : N) (s : string) :
  slash_free s = true -> slash_free (pretty_N_go x s) = true.
Proof.
  revert s. induction (N.lt_wf_0 x) as [x _ IH]; intros s Hs.
  assert (x = 0 \/ 0 < x)%N as [->|Hx] by lia.
  - by rewrite pretty_N_go_0.
  - rewrite pretty_N_go_step by done. apply IH; [by apply N.div_lt|].
    simpl. rewrite Hs. unfold pretty_N_char. by repeat case_match.
Qed.

Lemma pretty_Z_slash_free (z : Z) : slash_free (pretty z) = true.
Proof.
  destruct z as [|p|p]; unfold pretty, pretty_Z, pretty, pretty_positive, pretty, pretty_N.
  - done.
  - case_decide; [done|]. by apply pretty_N_go_slash_free.
  - rewrite slash_free_app. case_decide; [done|].
    by rewrite pretty_N_go_slash_free.
Qed.

(** The scope name of a rope is one segment. *)
Lemma rope_segments (ropeInd : Z) :
  segments ("Rope" +:+ pretty ropeInd) = ["Rope" +:+ pretty ropeInd].
Proof.
  apply segments_one; [done|]. by rewrite slash_free_app, pretty_Z_slash_free.
Qed.

Lemma scopes_only_reads {A} (st : Stage A) :
  scopes_only st ->
  point_instancers st = [] /\ joint_instancers st = [] /\ joint_prims st = [] /\
  cubes st = [] /\ capsules st = [].
Proof.
  induction 1 as [|[path d] st Hd _ IH]; [done|].
  simpl in Hd. subst d. exact IH.
Qed.

Section get_path_log.
Context {A : Type}.

(** With every prefix on the stage, the loop authors nothing. *)
Lemma get_path_scopes_present (segs : list string) (path : SdfPath) (st : Stage A) :
  (forall k, (1 <= k <= length segs)%nat -> path ++ take k segs ∈ st.*1) ->
  get_path_scopes path segs st = (st, Ok (path ++ segs)).
Proof.
  revert path. induction segs as [|seg segs IH]; intros path Hon.
  - by rewrite app_nil_r.
  - cbn [get_path_scopes]. unfold bind at 1, GetPrimAtPath at 1.
    rewrite bool_decide_true by (apply (Hon 1%nat); simpl; lia).
    unfold bind at 1, ret at 1. rewrite IH.
    + unfold AppendChild. by rewrite <- app_assoc.
    + intros k Hk. unfold AppendChild. rewrite <- app_assoc.
      change (path ++ [seg] ++ take k segs) with (path ++ take (S k) (seg :: segs)).
      apply Hon. simpl. lia.
Qed.

(** What the loop authors: [Xform]s at the prefixes that were missing. *)
Lemma get_path_scopes_log (segs : list string) (path : SdfPath) (st : Stage A) :
  exists ext,
    get_path_scopes path segs st = (st ++ ext, Ok (path ++ segs)) /\
    (forall k, (1 <= k <= length segs)%nat -> path ++ take k segs ∈ (st ++ ext).*1) /\
    Forall (fun e => e.2 = XformPrim /\ e.1 ∉ st.*1) ext /\
    NoDup ext.*1.
Proof.
  revert path st. induction segs as [|seg segs IH]; intros path st.
  - exists []. rewrite !app_nil_r. split; [done|]. split; [simpl; lia|].
    split; constructor.
  - cbn [get_path_scopes]. unfold bind at 1, GetPrimAtPath at 1.
    destruct (bool_decide (AppendChild path seg ∈ st.*1)) eqn:Hthere.
    + apply bool_decide_eq_true in Hthere. unfold bind at 1, ret at 1.
      destruct (IH (AppendChild path seg) st) as (ext & Hrun & Hon & Hnew & Hdup).
      exists ext. rewrite Hrun. unfold AppendChild in *. rewrite <- app_assoc.
      split; [done|]. split; [|done].
      intros [|[|k]] Hk; [lia| |].
      * change (take 1 (seg :: segs)) with [seg].
        rewrite fmap_app. apply elem_of_app. by left.
      * change (take (S (S k)) (seg :: segs)) with (seg :: take (S k) segs).
        specialize (Hon (S k)). rewrite <- app_assoc in Hon. apply Hon. simpl in Hk. lia.
    + apply bool_decide_eq_false in Hthere. unfold bind at 1, Define at 1.
      destruct (IH (AppendChild path seg) (st ++ [(AppendChild path seg, XformPrim)]))
        as (ext & Hrun & Hon & Hnew & Hdup).
      exists ((AppendChild path seg, XformPrim) :: ext). rewrite Hrun.
      unfold AppendChild in *. rewrite <- !app_assoc. cbn [app].
      split; [done|]. split; [|split].
      * intros [|[|k]] Hk; [lia| |].
        -- change (take 1 (seg :: segs)) with [seg].
           rewrite fmap_app. apply elem_of_app. right. cbn. apply list_elem_of_here.
        -- change (take (S (S k)) (seg :: segs)) with (seg :: take (S k) segs).
           specialize (Hon (S k)). rewrite <- !app_assoc in Hon. cbn [app] in Hon.
           apply Hon. simpl in Hk. lia.
      * constructor; [done|].
        eapply Forall_impl; [exact Hnew|]. intros e [He Hnotin]. split; [done|].
        intros Hin. apply Hnotin. rewrite fmap_app. apply elem_of_app. by left.
      * cbn. apply NoDup_cons. split; [|done].
        intros Hin. apply list_elem_of_fmap in Hin as (e & He & Hine).
        rewrite Forall_forall in Hnew. destruct (Hnew e Hine) as [_ Hnotin].
        apply Hnotin. rewrite fmap_app. apply elem_of_app. right.
        rewrite <- He. apply list_elem_of_here.
Qed.

(** What [get_path] authors and returns. *)
Lemma get_path_log (self : RigidBodyRopes) (rootPath primPath : string) (st : Stage A) :
  exists ext,
    get_path self rootPath primPath st
    = (st ++ ext, Ok (_defaultPrimPath self ++ segments rootPath ++ [primPath])) /\
    (forall k, (1 <= k <= length (segments rootPath))%nat ->
       _defaultPrimPath self ++ take k (segments rootPath) ∈ (st ++ ext).*1) /\
    _defaultPrimPath self ++ segments rootPath ++ [primPath] ∈ (st ++ ext).*1 /\
    Forall (fun e => e.2 = XformPrim /\ e.1 ∉ st.*1) ext /\
    NoDup ext.*1.
Proof.
  unfold get_path.
  destruct (get_path_scopes_log (segments rootPath) (_defaultPrimPath self) st)
    as (ext & Hrun & Hon & Hnew & Hdup).
  unfold bind at 1. rewrite Hrun. unfold AppendChild. rewrite <- app_assoc.
  set (leaf := _defaultPrimPath self ++ segments rootPath ++ [primPath]).
  unfold bind, GetPrimAtPath, Define, ret.
  destruct (decide (leaf ∈ (st ++ ext).*1)) as [Hthere|Hthere].
  - exists ext. rewrite bool_decide_true by done.
    split; [done|]. split; [done|]. split; [done|]. by split.
  - exists (ext ++ [(leaf, XformPrim)]). rewrite bool_decide_false by done.
    rewrite app_assoc.
    split; [done|]. split; [|split; [|split]].
    + intros k Hk. rewrite fmap_app. apply elem_of_app. left. by apply Hon.
    + rewrite fmap_app. apply elem_of_app. right. apply list_elem_of_here.
    + apply Forall_app. split; [done|]. constructor; [|constructor].
      split; [done|]. intros Hin. apply Hthere. rewrite fmap_app. apply elem_of_app. by left.
    + rewrite fmap_app. apply NoDup_app. split; [done|]. split; [|apply NoDup_singleton].
      intros path Hin Hleaf. apply list_elem_of_singleton in Hleaf. cbn in Hleaf. subst path.
      apply Hthere. rewrite fmap_app. apply elem_of_app. by right.
Qed.

(** With every prefix and the leaf on the stage, [get_path] authors
    nothing. *)
Lemma get_path_present (self : RigidBodyRopes) (rootPath primPath : string) (st : Stage A) :
  (forall k, (1 <= k <= length (segments rootPath))%nat ->
     _defaultPrimPath self ++ take k (segments rootPath) ∈ st.*1) ->
  _defaultPrimPath self ++ segments rootPath ++ [primPath] ∈ st.*1 ->
  get_path self rootPath primPath st
  = (st, Ok (_defaultPrimPath self ++ segments rootPath ++ [primPath])).
Proof.
  intros Hon Hleaf. unfold get_path, bind at 1.
  rewrite get_path_scopes_present by done.
  unfold AppendChild. rewrite <- app_assoc.
  unfold bind, GetPrimAtPath, ret. by rewrite bool_decide_true.
Qed.

End get_path_log.

(* ===================================================================== *)
(** ** What the builders author *)
(* ===================================================================== *)

Lemma vertical_ropes_log {A} `{Scalar A} (self : RigidBodyRopes) (st : Stage A) :
  builds (_createVerticalRopes self) st (range (_numRopes self))
    (fun ropeInd prims => prims = vertical_rope_prims self ropeInd).
Proof.
  unfold builds, _createVerticalRopes.
  match goal with
  | |- context [for_in ?xs ?body tt] =>
      destruct (for_in_log (fun ropeInd prims => prims = vertical_rope_prims self ropeInd)
                  body xs) with (s := tt) (st := st) as (logs & [] & Hrun & Hall)
  end.
  - intros ropeInd [] st'. eexists _, tt. split; [|reflexivity].
    unfold bind, Define, _createCapsule, vertical_rope_prims, joint_group.
    rewrite chain_joint_loop_arrays, link_fold. simpl.
    rewrite <- !app_assoc. reflexivity.
  - exists logs. unfold bind at 1. rewrite Hrun. done.
Qed.

Lemma multi_ropes_log (self : RigidBodyRopes) (elevation_angle : R) (st : Stage R) :
  _numRopes self <> 0%Z ->
  (1 <= numLinks self)%Z ->
  builds (_createMultiRopes self elevation_angle) st (range (_numRopes self))
    (fun ropeInd prims => exists fresh, prims = multi_rope_prims self elevation_angle ropeInd fresh).
Proof.
  intros Hropes Hlinks. unfold builds, _createMultiRopes.
  rewrite bool_decide_false by done.
  match goal with
  | |- context [for_in ?xs ?body None] =>
      destruct (for_in_log
                  (fun ropeInd prims =>
                     exists fresh, prims = multi_rope_prims self elevation_angle ropeInd fresh)
                  body xs) with (s := @None (Vec3 R)) (st := st) as (logs & s' & Hrun & Hall)
  end.
  - intros ropeInd xyz st'.
    rewrite (link_fold_bind (multi_link_position self elevation_angle ropeInd)
               (rope_orientation (rope_angle self ropeInd) elevation_angle)).
    rewrite last_range by done. rewrite chain_joint_loop_arrays.
    cbn [from_option fmap option_fmap option_map].
    unfold create_box, get_path. rewrite rope_segments. cbn [get_path_scopes].
    unfold GetPrimAtPath, _createCapsule, bind, Define, ret.
    cbn [meshIndices link_positions link_orientations app].
    rewrite <- !app_assoc. cbn [app].
    rewrite bool_decide_true.
    2:{ rewrite fmap_app. apply elem_of_app. right. cbn. set_solver. }
    match goal with
    | |- context [bool_decide ?P] => destruct (bool_decide P)
    end.
    + cbv beta iota.
      eexists _, _. split; [rewrite <- !app_assoc; cbn [app]; reflexivity|]. exists false.
      unfold multi_rope_prims, multi_rope_prims_head, multi_rope_prims_tail, joint_group.
      reflexivity.
    + cbv beta iota.
      eexists _, _. split; [rewrite <- !app_assoc; cbn [app]; reflexivity|]. exists true.
      unfold multi_rope_prims, multi_rope_prims_head, multi_rope_prims_tail, joint_group.
      reflexivity.
  - exists logs. unfold bind at 1. rewrite Hrun. done.
Qed.

(* ===================================================================== *)
(** ** Quaternions and rotations *)
(* ===================================================================== *)

Section rotations.
Local Open Scope R_scope.

Lemma half_angle_cos (a : R) : cos a = cos (a / 2) * cos (a / 2) - sin (a / 2) * sin (a / 2).
Proof. rewrite <- cos_2a. f_equal. field. Qed.

Lemma half_angle_sin (a : R) : sin a = 2 * sin (a / 2) * cos (a / 2).
Proof. rewrite <- sin_2a. f_equal. field. Qed.

Lemma sin_cos_unit (a : R) : sin a * sin a + cos a * cos a = 1.
Proof. exact (sin2_cos2 a). Qed.

Lemma Vec3_eq (u v : Vec3 R) : vx u = vx v -> vy u = vy v -> vz u = vz v -> u = v.
Proof. destruct u, v; simpl; congruence. Qed.

Lemma Quat_eq (p q : Quat R) :
  qw p = qw q -> qi p = qi q -> qj p = qj q -> qk p = qk q -> p = q.
Proof. destruct p, q; simpl; congruence. Qed.

Lemma GetNormalized_unit (v : Vec3 R) :
  vx v * vx v + vy v * vy v + vz v * vz v = 1 -> GetNormalized v = v.
Proof.
  intros Hv. unfold GetNormalized, Vec3_GetLength. rewrite Hv, sqrt_1.
  destruct (Rlt_dec GF_MIN_VECTOR_LENGTH 1) as [_|Hn].
  - apply Vec3_eq; simpl; field.
  - exfalso. apply Hn. unfold GF_MIN_VECTOR_LENGTH. simpl. lra.
Qed.

Lemma yaw_components (a : R) : yaw a = mkQuat (cos (a / 2)) 0 0 (sin (a / 2)).
Proof.
  unfold yaw, calculate_orientation. rewrite GetNormalized_unit by (simpl; ring).
  apply Quat_eq; simpl; ring.
Qed.

Lemma pitch_components (e : R) :
  calculate_orientation e (mkVec3 0 (-1) 0) = mkQuat (cos (e / 2)) 0 (- sin (e / 2)) 0.
Proof.
  unfold calculate_orientation. rewrite GetNormalized_unit by (simpl; ring).
  apply Quat_eq; simpl; ring.
Qed.

(** The yaw quaternion turns vectors about the vertical axis. *)
Lemma yaw_Transform (a : R) (v : Vec3 R) :
  Quat_Transform (yaw a) v
  = mkVec3 (vx v * cos a - vy v * sin a) (vx v * sin a + vy v * cos a) (vz v).
Proof.
  rewrite yaw_components, (half_angle_cos a), (half_angle_sin a).
  pose proof (sin_cos_unit (a / 2)) as Hu.
  set (c := cos (a / 2)) in *. set (s := sin (a / 2)) in *.
  unfold Quat_Transform, Quat_mul, Quat_GetInverse. simpl.
  replace (c * c + 0 * 0 + 0 * 0 + s * s) with 1 by lra.
  apply Vec3_eq; simpl; unfold Rdiv; rewrite ?Rinv_1; nsatz.
Qed.

Lemma Quat_Transform_unit (q : Quat R) (v : Vec3 R) :
  qw q * qw q + qi q * qi q + qj q * qj q + qk q * qk q = 1 ->
  Quat_Transform q v
  = let r := Quat_mul (Quat_mul q (mkQuat 0 (vx v) (vy v) (vz v)))
               (mkQuat (qw q) (- qi q) (- qj q) (- qk q)) in
    mkVec3 (qi r) (qj r) (qk r).
Proof.
  intros Hq. unfold Quat_Transform, Quat_GetInverse. rewrite Hq.
  unfold Rdiv. rewrite Rinv_1, !Rmult_1_r. reflexivity.
Qed.

Lemma Quat_mul_unit (p q : Quat R) :
  qw p * qw p + qi p * qi p + qj p * qj p + qk p * qk p = 1 ->
  qw q * qw q + qi q * qi q + qj q * qj q + qk q * qk q = 1 ->
  let r := Quat_mul p q in
  qw r * qw r + qi r * qi r + qj r * qj r + qk r * qk r = 1.
Proof. intros Hp Hq. destruct p, q; simpl in *. nsatz. Qed.

(** The product of two unit quaternions turns a vector as the right
    factor does and then the left one. *)
Lemma Quat_Transform_mul (p q : Quat R) (v : Vec3 R) :
  qw p * qw p + qi p * qi p + qj p * qj p + qk p * qk p = 1 ->
  qw q * qw q + qi q * qi q + qj q * qj q + qk q * qk q = 1 ->
  Quat_Transform (Quat_mul p q) v = Quat_Transform p (Quat_Transform q v).
Proof.
  intros Hp Hq.
  rewrite (Quat_Transform_unit (Quat_mul p q)) by (by apply Quat_mul_unit).
  rewrite (Quat_Transform_unit p), (Quat_Transform_unit q) by done.
  destruct p, q, v. apply Vec3_eq; simpl; ring.
Qed.

(** The axis of the pitch after the yaw by [a] is horizontal and orthogonal
    to the yawed forward axis [(cos a, sin a, 0)]. *)
Lemma pitch_axis_after_yaw (a : R) :
  Quat_Transform (yaw a) (mkVec3 0 (-1) 0) = mkVec3 (sin a) (- cos a) 0.
Proof. rewrite yaw_Transform. apply Vec3_eq; simpl; ring. Qed.

Lemma yaw_unit (a : R) :
  let q := yaw a in qw q * qw q + qi q * qi q + qj q * qj q + qk q * qk q = 1.
Proof.
  rewrite yaw_components. simpl. pose proof (sin_cos_unit (a / 2)). lra.
Qed.

Lemma pitch_after_yaw_components (a e : R) :
  pitch_after_yaw a e
  = mkQuat (cos (e / 2)) (sin a * sin (e / 2)) (- cos a * sin (e / 2)) 0.
Proof.
  unfold pitch_after_yaw. rewrite yaw_Transform. unfold calculate_orientation.
  rewrite GetNormalized_unit.
  - apply Quat_eq; simpl; ring.
  - simpl. pose proof (sin_cos_unit a). nsatz.
Qed.

Lemma pitch_after_yaw_unit (a e : R) :
  let q := pitch_after_yaw a e in
  qw q * qw q + qi q * qi q + qj q * qj q + qk q * qk q = 1.
Proof.
  rewrite pitch_after_yaw_components. simpl.
  pose proof (sin_cos_unit a). pose proof (sin_cos_unit (e / 2)). nsatz.
Qed.

Lemma rope_orientation_components (a e : R) :
  rope_orientation a e
  = mkQuat (cos (a / 2) * cos (e / 2)) (sin (a / 2) * sin (e / 2))
      (- (cos (a / 2) * sin (e / 2))) (sin (a / 2) * cos (e / 2)).
Proof.
  unfold rope_orientation. fold (yaw a). rewrite yaw_components, pitch_components.
  apply Quat_eq; simpl; ring.
Qed.

(** [q_z * q_y] is the yaw followed by the pitch about the turned axis. *)
Lemma rope_orientation_yaw_then_pitch (a e : R) :
  rope_orientation a e = Quat_mul (pitch_after_yaw a e) (yaw a).
Proof.
  rewrite rope_orientation_components, pitch_after_yaw_components, yaw_components.
  rewrite (half_angle_cos a), (half_angle_sin a).
  pose proof (sin_cos_unit (a / 2)) as Hu.
  set (c := cos (a / 2)) in *. set (s := sin (a / 2)) in *.
  apply Quat_eq; simpl; nsatz.
Qed.

Lemma rope_orientation_forward (a e : R) :
  Quat_Transform (rope_orientation a e) (mkVec3 1 0 0) = direction a e.
Proof.
  unfold rope_orientation. fold (yaw a).
  rewrite Quat_Transform_mul.
  - rewrite yaw_Transform.
    rewrite Quat_Transform_unit.
    + rewrite pitch_components. unfold direction.
      rewrite (half_angle_cos e), (half_angle_sin e).
      pose proof (sin_cos_unit (e / 2)) as Hu.
      set (c := cos (e / 2)) in *. set (s := sin (e / 2)) in *.
      apply Vec3_eq; simpl; nsatz.
    + rewrite pitch_components. simpl. pose proof (sin_cos_unit (e / 2)). lra.
  - apply yaw_unit.
  - rewrite pitch_components. simpl. pose proof (sin_cos_unit (e / 2)). lra.
Qed.

Lemma rope_orientation_not_identity (a e : R) :
  sin (a / 2) <> 0 \/ sin (e / 2) <> 0 -> rope_orientation a e <> Quat_identity.
Proof.
  intros Hs Hq. rewrite rope_orientation_components in Hq.
  injection Hq as Hw Hi Hj Hk. simpl in *.
  destruct Hs as [Hs|Hs]; apply Hs; nsatz.
Qed.
End rotations.

(* ===================================================================== *)
(** ** One assembly of either layout *)
(* ===================================================================== *)

Lemma builds_impl {A} (b : Build A unit) (st : Stage A) (ropes : list Z)
    (P Q : Z -> Stage A -> Prop) :
  builds b st ropes P ->
  (forall ropeInd prims, P ropeInd prims -> Q ropeInd prims) ->
  builds b st ropes Q.
Proof.
  intros (logs & Hrun & Hall) HPQ. exists logs. split; [done|].
  eapply Forall2_impl; eauto.
Qed.

Lemma link_index_chain (n : Z) :
  Forall (link_index n) (range (n - 1)) /\
  Forall (link_index n) ((fun i => (i + 1)%Z) <$> range (n - 1)).
Proof.
  unfold range, link_index. split.
  - apply Forall_seqZ. lia.
  - apply Forall_fmap, Forall_seqZ. simpl. lia.
Qed.

Section one_assembly.
Context {A : Type} `{Scalar A}.
Variable self : RigidBodyRopes.
Variable ropeInd : Z.

Lemma vertical_joint_counts :
  (1 <= numLinks self)%Z ->
  joint_counts (A:=A) self (fun _ => _tableTopPath self) ropeInd
    (vertical_rope_prims self ropeInd).
Proof.
  intros Hn. unfold joint_counts, vertical_rope_prims, joint_group.
  eexists _, _, _, _.
  split; [split; [reflexivity | split; array_lengths]|].
  split; [array_lengths|].
  split; [by exists "ropeTableCon"|].
  split; [by split|]. split; [by split|]. split; [by split|].
  split; [unfold parallel_arrays, joint_count; repeat split; array_lengths|].
  split; [unfold parallel_arrays, joint_count; repeat split; array_lengths|].
  split; [unfold parallel_arrays, joint_count; repeat split; array_lengths|].
  split; [unfold joint_count; array_lengths|].
  split; [reflexivity|]. split; [reflexivity|].
  split; [reflexivity|]. split; [reflexivity|].
  split; [reflexivity|]. split; [reflexivity|].
  intros Hone. unfold joint_count. cbn [physicsProtoIndices physicsBody1Indices
    physicsBody0Indices jointMeshIndices jointBody0Indices jointBody1Indices chain_joint_arrays].
  rewrite Hone. by vm_compute.
Qed.

Lemma vertical_link_indices_ok :
  (1 <= numLinks self)%Z ->
  link_indices_ok (A:=A) self ropeInd (vertical_rope_prims self ropeInd).
Proof.
  intros Hn. destruct (link_index_chain (numLinks self)) as [Hc0 Hc1].
  unfold link_indices_ok, vertical_rope_prims, joint_group.
  eexists _, _, _, _, _.
  split; [split; [reflexivity | split; array_lengths]|].
  split; [array_lengths|].
  split; [by exists "ropeTableCon"|].
  split; [by split|]. split; [by split|]. split; [by split|].
  split; [reflexivity|]. split; [reflexivity|].
  split; [reflexivity|]. split; [reflexivity|].
  assert (link_index (numLinks self) 0) as H0 by (unfold link_index; lia).
  assert (link_index (numLinks self) (numLinks self - 1)) as Hl by (unfold link_index; lia).
  split; [exact Hc0|]. split; [exact Hc1|].
  split; [by apply Forall_singleton|]. split; [by apply Forall_singleton|].
  link_groups_in_range.
Qed.

Lemma vertical_archetypes : archetypes (A:=A) self "Z" ropeInd (vertical_rope_prims self ropeInd).
Proof.
  unfold archetypes, vertical_rope_prims, joint_group.
  eexists _, _, _, _, _, _.
  split; [by exists "ropeTableCon"|].
  split; [reflexivity|].
  split; [reflexivity|]. split; [reflexivity|]. split; [reflexivity|].
  split; [cbn; by apply Forall_fmap, Forall_true|].
  split; [reflexivity|]. split; [reflexivity|].
  eexists. by repeat split.
Qed.
End one_assembly.

Section one_radial_assembly.
Variable self : RigidBodyRopes.
Variable elevation_angle : R.
Variable ropeInd : Z.
Variable fresh : bool.

Lemma multi_joint_counts :
  (1 <= numLinks self)%Z ->
  joint_counts self (boxPath self) ropeInd
    (multi_rope_prims self elevation_angle ropeInd fresh).
Proof.
  intros Hn.
  unfold joint_counts, multi_rope_prims, multi_rope_prims_head, multi_rope_prims_tail, joint_group.
  eexists _, _, _, _.
  split; [split; [by destruct fresh | split; array_lengths]|].
  split; [array_lengths|].
  split; [exists "ropeBoxCon"; by destruct fresh|].
  split; [by split|]. split; [by split|]. split; [by split|].
  split; [unfold parallel_arrays, joint_count; repeat split; array_lengths|].
  split; [unfold parallel_arrays, joint_count; repeat split; array_lengths|].
  split; [unfold parallel_arrays, joint_count; repeat split; array_lengths|].
  split; [unfold joint_count; array_lengths|].
  split; [reflexivity|]. split; [reflexivity|].
  split; [reflexivity|]. split; [reflexivity|].
  split; [reflexivity|]. split; [reflexivity|].
  intros Hone. unfold joint_count. cbn [physicsProtoIndices physicsBody1Indices
    physicsBody0Indices jointMeshIndices jointBody0Indices jointBody1Indices chain_joint_arrays].
  rewrite Hone. by vm_compute.
Qed.

Lemma multi_link_indices_ok :
  (1 <= numLinks self)%Z ->
  link_indices_ok self ropeInd (multi_rope_prims self elevation_angle ropeInd fresh).
Proof.
  intros Hn. destruct (link_index_chain (numLinks self)) as [Hc0 Hc1].
  unfold link_indices_ok, multi_rope_prims, multi_rope_prims_head, multi_rope_prims_tail,
    joint_group.
  eexists _, _, _, _, _.
  split; [split; [by destruct fresh | split; array_lengths]|].
  split; [array_lengths|].
  split; [exists "ropeBoxCon"; by destruct fresh|].
  split; [by split|]. split; [by split|]. split; [by split|].
  split; [reflexivity|]. split; [reflexivity|].
  split; [reflexivity|]. split; [reflexivity|].
  assert (link_index (numLinks self) 0) as H0 by (unfold link_index; lia).
  assert (link_index (numLinks self) (numLinks self - 1)) as Hl by (unfold link_index; lia).
  split; [exact Hc0|]. split; [exact Hc1|].
  split; [by apply Forall_singleton|]. split; [by apply Forall_singleton|].
  destruct fresh; link_groups_in_range.
Qed.

Lemma multi_archetypes :
  archetypes self "X" ropeInd (multi_rope_prims self elevation_angle ropeInd fresh).
Proof.
  unfold archetypes, multi_rope_prims, multi_rope_prims_head, multi_rope_prims_tail, joint_group.
  eexists _, _, _, _, _, _.
  split; [exists "ropeBoxCon"; by destruct fresh|].
  split; [by destruct fresh|].
  split; [reflexivity|]. split; [reflexivity|]. split; [reflexivity|].
  split; [cbn; by apply Forall_fmap, Forall_true|].
  split; [reflexivity|]. split; [reflexivity|].
  eexists. by repeat split.
Qed.
End one_radial_assembly.

(* ===================================================================== *)
(** ** One radial assembly: geometry *)
(* ===================================================================== *)

Lemma const_fmap_range {X} (x : X) (n : Z) :
  (fun _ => x) <$> range n = replicate (Z.to_nat n) x.
Proof.
  unfold range. rewrite (const_fmap (fun _ => x) (seqZ 0 n) x) by done.
  by rewrite length_seqZ.
Qed.

Lemma lookup_fmap_range {X} (f : Z -> X) (n k : Z) :
  (0 <= k < n)%Z -> (f <$> range n) !! Z.to_nat k = Some (f k).
Proof.
  intros Hk. unfold range. rewrite list_lookup_fmap, lookup_seqZ_lt by lia.
  simpl. f_equal. f_equal. lia.
Qed.

Section configured.
Variable stage : UsdStage.
Variable num_ropes : Z.
Variables rope_length payload_mass load_height : Q.

Local Abbreviation self := (configure stage num_ropes rope_length payload_mass load_height).

Lemma linkLength_value : linkLength self == 1 # 10.
Proof. reflexivity. Qed.

Lemma payloadRadius_real : Q2R (_payloadRadius self) = (24 / 100)%R.
Proof. rewrite (Qeq_eqR _ (24 # 100)) by reflexivity. unfold Q2R. simpl. lra. Qed.

Lemma capsuleHalf_real : Q2R (linkLength self * 0.5) = (5 / 100)%R.
Proof. rewrite (Qeq_eqR _ (5 # 100)) by reflexivity. unfold Q2R. simpl. lra. Qed.

Lemma rope_angle_azimuth (ropeInd : Z) :
  num_ropes <> 0%Z -> rope_angle self ropeInd = azimuth num_ropes ropeInd.
Proof.
  intros Hn. unfold rope_angle, azimuth. simpl. field.
  by apply not_0_IZR.
Qed.

Section radial.
Variable elevation_angle : R.
Variable ropeInd : Z.
Variable fresh : bool.
Hypothesis ropes_nonzero : num_ropes <> 0%Z.
Hypothesis links_positive : (1 <= numLinks self)%Z.

Local Open Scope R_scope.

Lemma first_link_distance :
  horizontal_distance (multi_link_position self elevation_angle ropeInd 0)
  = Q2R (_payloadRadius self) + Q2R (linkLength self * 0.5) * cos elevation_angle.
Proof.
  unfold horizontal_distance, multi_link_position. cbn [vx vy vz].
  set (reach := Q2R (_payloadRadius self) + Q2R (linkLength self * 0.5) * cos elevation_angle).
  set (a := rope_angle self ropeInd).
  replace (_ * _ + _ * _) with (reach * reach).
  - apply sqrt_square. subst reach. rewrite payloadRadius_real, capsuleHalf_real.
    pose proof (COS_bound elevation_angle). lra.
  - pose proof (sin_cos_unit a). nsatz.
Qed.

Lemma multi_radial_positions :
  radial_positions self elevation_angle ropeInd
    (multi_rope_prims self elevation_angle ropeInd fresh).
Proof.
  unfold radial_positions, multi_rope_prims, multi_rope_prims_head, multi_rope_prims_tail.
  eexists _, (multi_link_position self elevation_angle ropeInd 0).
  split; [split; [by destruct fresh | split; array_lengths]|].
  cbn [positions].
  split; [apply (lookup_fmap_range _ _ 0); lia|].
  rewrite first_link_distance.
  split; [unfold multi_link_position; rewrite rope_angle_azimuth by done; simpl; ring|].
  split; [unfold multi_link_position; rewrite rope_angle_azimuth by done; simpl; ring|].
  split; [reflexivity|].
  intros k Hk. rewrite lookup_fmap_range by done. f_equal.
  unfold multi_link_position. rewrite rope_angle_azimuth by done.
  apply Vec3_eq; simpl; ring.
Qed.

Lemma multi_radial_orientation :
  radial_orientation self elevation_angle ropeInd
    (multi_rope_prims self elevation_angle ropeInd fresh).
Proof.
  unfold radial_orientation, multi_rope_prims, multi_rope_prims_head, multi_rope_prims_tail.
  eexists.
  split; [split; [by destruct fresh | split; array_lengths]|].
  cbn [orientations]. rewrite rope_angle_azimuth by done.
  rewrite <- rope_orientation_yaw_then_pitch.
  split; [apply const_fmap_range|].
  split; [reflexivity|].
  split; [|apply rope_orientation_forward].
  intros v. rewrite rope_orientation_yaw_then_pitch.
  apply Quat_Transform_mul; [apply pitch_after_yaw_unit | apply yaw_unit].
Qed.

Lemma multi_radial_payload_anchor :
  radial_payload_anchor self elevation_angle ropeInd
    (multi_rope_prims self elevation_angle ropeInd fresh).
Proof.
  unfold radial_payload_anchor, multi_rope_prims, multi_rope_prims_head,
    multi_rope_prims_tail, joint_group.
  eexists _, _, _, _.
  split; [split; [by destruct fresh | split; array_lengths]|].
  split; [exists "ropeBoxCon"%string; by destruct fresh|].
  split; [by split|].
  cbn [physicsLocalPos0s physicsLocalPos1s physicsLocalRot0s physicsLocalRot1s
       jointLocalPos0 jointLocalPos1 jointLocalRot0 jointLocalRot1 orientations].
  rewrite rope_angle_azimuth by done.
  rewrite <- rope_orientation_yaw_then_pitch.
  split; [reflexivity|]. split; [reflexivity|].
  split; [by apply Forall_fmap, Forall_true|].
  split.
  { rewrite const_fmap_range. destruct (Z.to_nat (numLinks self)) eqn:E; [lia | done]. }
  split; [by rewrite Q2R_opp|]. split; [reflexivity|].
  apply rope_orientation_not_identity.
Qed.
End radial.
End configured.

(* ===================================================================== *)
(** ** [create] and the degenerate rope *)
(* ===================================================================== *)

Lemma create_box_log {A} (self : RigidBodyRopes) (rootPath primPath : string)
    (dimensions : Vec3 Q) (position : Vec3 A) (orientation : Quat A) (st : Stage A) :
  exists box,
    create_box self rootPath primPath dimensions position orientation st = (st ++ box, Ok tt) /\
    point_instancers box = [] /\ joint_instancers box = [] /\ joint_prims box = [].
Proof.
  unfold create_box.
  destruct (get_path_log self rootPath primPath st) as (ext & Hrun & _ & _ & Hnew & _).
  unfold bind, Define. rewrite Hrun.
  eexists (ext ++ [_]). rewrite (app_assoc st ext). split; [reflexivity|].
  assert (scopes_only ext) as Hscopes.
  { eapply Forall_impl; [exact Hnew|]. by intros e [He _]. }
  destruct (scopes_only_reads ext Hscopes) as (Hp & Hj & Hq & _ & _).
  unfold point_instancers, joint_instancers, joint_prims in *.
  by rewrite !omap_app, Hp, Hj, Hq.
Qed.

Lemma table_segments : segments "Table" = ["Table"].
Proof. by apply segments_one. Qed.

Lemma create_table_log {A} `{Scalar A} (self : RigidBodyRopes) (st : Stage A) :
  exists scopes,
    create_table self st
    = (st ++ scopes ++
         [(AppendChild (AppendChild (_defaultPrimPath self) "Table") "tableTopActor",
           CubePrim
             (mkCube
                (mkVec3 (of_Q 0.0) (of_Q 0.0)
                   (of_Q (_tableHeight self - _tableThickness self * _scaleFactor self * 0.5)))
                Quat_identity
                (orient_dim self
                   (mkVec3 (fst (_tableSurfaceDim self)) (snd (_tableSurfaceDim self))
                      (_tableThickness self)))
                1.0 false))], Ok tt) /\
    scopes_only scopes.
Proof.
  unfold create_table, create_box.
  match goal with
  | |- context [get_path ?s ?r ?p] =>
      destruct (get_path_log s r p st) as (ext & Hrun & _ & _ & Hnew & _)
  end.
  unfold bind, Define. rewrite Hrun. rewrite table_segments.
  exists ext. unfold AppendChild. rewrite <- !app_assoc. split; [reflexivity|].
  eapply Forall_impl; [exact Hnew|]. by intros e [He _].
Qed.

Section create_paths.
Variable stage : UsdStage.
Variable num_ropes : Z.
Variables rope_length payload_mass load_height : Q.
Variable elevation_angle : R.
Hypothesis scale_defined : Qeq_bool (GetStageMetersPerUnit stage * 100.0) 0 = false.

Local Abbreviation self := (configure stage num_ropes rope_length payload_mass load_height).

Lemma create_vertical_path (st : Stage R) :
  (num_ropes < 2)%Z ->
  exists table,
    create stage num_ropes rope_length payload_mass load_height elevation_angle st
    = _createVerticalRopes self (st ++ payload_prims self ++ table) /\
    point_instancers table = [] /\ joint_instancers table = [] /\ joint_prims table = [].
Proof.
  intros Hn. unfold create. rewrite scale_defined.
  apply Z.ltb_lt in Hn. rewrite Hn. 
  unfold bind at 1. unfold _createPayload, bind, Define. cbv beta iota.
  unfold create_table.
  match goal with
  | |- context [create_box ?s ?r ?p ?d ?pos ?o ?st0] =>
      destruct (create_box_log s r p d pos o st0) as (box & Hbox & Hp & Hj & Hq)
  end.
  exists box. rewrite Hbox. rewrite <- !app_assoc. done.
Qed.

Lemma create_radial_path (st : Stage R) :
  (2 <= num_ropes)%Z ->
  create stage num_ropes rope_length payload_mass load_height elevation_angle st
  = _createMultiRopes self elevation_angle (st ++ payload_prims self).
Proof.
  intros Hn. unfold create. rewrite scale_defined.
  apply Z.ltb_ge in Hn. rewrite Hn. 
  unfold bind at 1. unfold _createPayload, bind, Define. cbv beta iota.
  by rewrite <- !app_assoc.
Qed.
End create_paths.

(** With no link the radial layout stops at rope 0, where the box position
    reads the unbound [x]: the link collection, the chain group and the
    payload attachment of that rope are authored, the box and its joint are
    not. *)
Lemma multi_ropes_unbound (self : RigidBodyRopes) (elevation_angle : R) (st : Stage R) :
  (1 <= _numRopes self)%Z ->
  (numLinks self <= 0)%Z ->
  _createMultiRopes self elevation_angle st
  = (st ++ multi_rope_prims_head self elevation_angle 0, Raise UnboundLocalError).
Proof.
  intros Hropes Hlinks. unfold _createMultiRopes.
  rewrite bool_decide_false by lia.
  unfold range at 1. rewrite seqZ_cons by lia. cbn [for_in].
  rewrite chain_joint_loop_arrays.
  unfold multi_rope_prims_head, range. rewrite (seqZ_nil 0 (numLinks self)) by lia.
  cbn [fold_left].
  unfold _createCapsule, bind, Define, raise. cbv beta iota.
  rewrite <- !app_assoc. reflexivity.
Qed.

(* ===================================================================== *)
(** ** Joint archetypes *)
(* ===================================================================== *)

Section joints.
Variable stage : UsdStage.
Variable num_ropes : Z.
Variables rope_length payload_mass load_height : Q.

Local Abbreviation self := (configure stage num_ropes rope_length payload_mass load_height).

(** A selector other than ["Z"] and ["X"] is read as ["Y"]. *)
Lemma cable_joint_other_axis (axis : string) :
  axis <> "Z" -> axis <> "X" -> _createCableJoint self axis = _createCableJoint self "Y".
Proof.
  intros HZ HX. apply String.eqb_neq in HZ, HX.
  unfold _createCableJoint. by rewrite HZ, HX.
Qed.

(** The universal joint: translations and [rotZ] locked, [rotX] and [rotY]
    bounded by the cone angle of 160 degrees. *)
Lemma universal_joint_limits :
  let joint := _createUniJoint self in
  Forall (locked joint) ["transX"; "transY"; "transZ"; "rotZ"] /\
  Forall (fun d => cone_limited joint d 160) ["rotX"; "rotY"] /\
  ~ locked joint "rotX" /\ ~ locked joint "rotY".
Proof.
  split; [repeat (apply List.Forall_cons; [split; attr_value 0.0|]); apply List.Forall_nil|].
  split; [repeat (apply List.Forall_cons; [split; [attr_value (-(160))| attr_value 160]|]);
          apply List.Forall_nil|].
  split; intros [(v & Hv & Hq) _]; vm_compute in Hv; injection Hv as <-; discriminate Hq.
Qed.

Lemma cable_not_universal (axis : string) : _createCableJoint self axis <> _createUniJoint self.
Proof.
  intros E. apply (f_equal (fun p => length (apiSchemas p))) in E. revert E.
  cable_axis_cases axis; vm_compute; discriminate.
Qed.

Lemma cable_not_fixed (axis : string) : _createCableJoint self axis <> _createFixJoint self.
Proof.
  intros E. apply (f_equal (fun p => length (apiSchemas p))) in E. revert E.
  cable_axis_cases axis; vm_compute; discriminate.
Qed.

Lemma universal_not_fixed : _createUniJoint self <> _createFixJoint self.
Proof.
  intros E. apply (f_equal (fun p => get_attr p (limit_low "transX"))) in E.
  vm_compute in E. discriminate E.
Qed.

Lemma cable_slide_policy_same :
  slide_policy (_createCableJoint self "Z") "transZ"
  = slide_policy (_createCableJoint self "X") "transX".
Proof. vm_compute. reflexivity. Qed.

Lemma multi_radial_anchor_joint (elevation_angle : R) (ropeInd : Z) (fresh : bool) :
  radial_anchor_joint self ropeInd (multi_rope_prims self elevation_angle ropeInd fresh).
Proof.
  destruct universal_joint_limits as (Hlocked & Hcone & HrotX & _).
  unfold radial_anchor_joint, multi_rope_prims, multi_rope_prims_head, multi_rope_prims_tail,
    joint_group.
  eexists _, _, _, _, _, _, _, _.
  split; [exists "ropeBoxCon"; by destruct fresh|].
  split; [by destruct fresh|].
  split; [reflexivity|]. split; [reflexivity|].
  split; [destruct fresh; apply list_elem_of_here|].
  split; [reflexivity|]. split; [reflexivity|].
  split; [destruct fresh; do 2 apply list_elem_of_further; apply list_elem_of_here|].
  split; [reflexivity|]. split; [reflexivity|].
  split; [by apply (Forall_inv (Forall_inv_tail (Forall_inv_tail (Forall_inv_tail Hlocked))))|].
  split; [by apply (Forall_inv Hcone)|].
  split; [by apply (Forall_inv (Forall_inv_tail Hcone))|].
  exact HrotX.
Qed.

(** The payload itself is authored with a translation and no orientation. *)
Lemma payload_has_no_orientation (st : Stage R) :
  exists c,
    _createPayload self st
    = (st ++ [(_payloadXform self, XformPrim); (_payloadPath self, CylinderPrim c)], Ok tt) /\
    cyl_orient c = None /\ cyl_translate c = _payloadPos self.
Proof.
  eexists. unfold _createPayload, bind, Define. cbv beta iota.
  rewrite <- app_assoc. by split.
Qed.
End joints.

(* ===================================================================== *)
(** ** The number of links and the ropes without links *)
(* ===================================================================== *)

Lemma py_int_floor (x : Q) : 0 <= x -> py_int x = Qfloor x.
Proof.
  destruct x as [n d]. unfold Qle, py_int, Qfloor. simpl. intros Hn.
  rewrite Z.mul_1_r in Hn. change (0 * Z.pos d)%Z with 0%Z in Hn.
  apply Z.quot_div_nonneg; [exact Hn | reflexivity].
Qed.

Lemma py_int_small (x : Q) : 0 <= x -> x < 1 -> py_int x = 0%Z.
Proof.
  destruct x as [n d]. unfold Qle, Qlt, py_int. simpl. intros Hlo Hhi.
  apply Z.quot_small. lia.
Qed.

Lemma numLinks_below_one_pitch (stage : UsdStage) (num_ropes : Z)
    (rope_length payload_mass load_height : Q) :
  0 <= rope_length ->
  rope_length < linkLength (configure stage num_ropes rope_length payload_mass load_height) ->
  numLinks (configure stage num_ropes rope_length payload_mass load_height) = 0%Z.
Proof.
  intros Hlo Hhi. unfold numLinks.
  change (_ropeLength (configure stage num_ropes rope_length payload_mass load_height))
    with rope_length.
  change (linkLength (configure stage num_ropes rope_length payload_mass load_height))
    with (0.06 + 2 * 0.02) in *.
  assert (rope_length / (0.06 + 2 * 0.02) == rope_length * 10) as Hdiv by field.
  apply py_int_small; rewrite Hdiv.
  - apply Qmult_le_0_compat; [exact Hlo | done].
  - revert Hhi. unfold Qlt. simpl. lia.
Qed.

Section degenerate.
Context {A : Type} `{Scalar A}.
Variable self : RigidBodyRopes.
Variable ropeInd : Z.

Lemma vertical_link_index_out_of_range :
  (numLinks self <= 0)%Z ->
  some_link_index_out_of_range (A:=A) (linksPath self ropeInd) (numLinks self)
    (vertical_rope_prims self ropeInd).
Proof.
  intros Hn. unfold some_link_index_out_of_range, vertical_rope_prims, joint_group.
  eexists _, _. split.
  - do 2 apply list_elem_of_further. apply list_elem_of_here.
  - intros [Hbody0 _]. specialize (Hbody0 eq_refl).
    cbn [physicsBody0Indices jointBody0Indices] in Hbody0.
    apply Forall_inv in Hbody0. unfold link_index in Hbody0. lia.
Qed.

Lemma vertical_empty_assembly :
  numLinks self = 0%Z -> empty_assembly (A:=A) self ropeInd (vertical_rope_prims self ropeInd).
Proof.
  intros Hn. unfold empty_assembly, vertical_rope_prims, joint_group.
  eexists _, _, _, _.
  split; [split; [reflexivity | split; array_lengths]|].
  split; [cbn [positions]; by rewrite Hn|].
  split; [by exists "ropeTableCon"|].
  split; [unfold joint_count; cbn [physicsProtoIndices jointMeshIndices chain_joint_arrays];
          by rewrite Hn|].
  split; [reflexivity|]. split; [reflexivity|]. split; [reflexivity|].
  cbn [physicsBody0Indices jointBody0Indices]. by rewrite Hn.
Qed.
End degenerate.

(* ===================================================================== *)
(** ** Properties of the joints and of the two layouts *)
(* ===================================================================== *)

Section properties.
Variable stage : UsdStage.
Variable num_ropes : Z.
Variables rope_length payload_mass load_height : Q.
Variable elevation_angle : R.

Local Abbreviation self := (configure stage num_ropes rope_length payload_mass load_height).

(** C1, as the code has it: with at least one link, every assembly of
    either layout has [numLinks] links and [numLinks - 1] chain joints,
    joint [i] connecting link [i] to link [i + 1], and two attachment groups
    of one joint each, one from the payload to link 0 and one from link
    [numLinks - 1] to the structure: the table top in the vertical layout,
    the box of the assembly, authored with it, in the radial one; with a
    single link there is no chain joint and both attachments hold link 0. *)
Theorem chain_and_attachment_joint_counts :
  (1 <= numLinks self)%Z ->
  num_ropes <> 0%Z ->
  (forall A (HA : Scalar A) (st : Stage A),
     builds (_createVerticalRopes self) st (range num_ropes)
       (joint_counts self (fun _ => _tableTopPath self))) /\
  (forall st : Stage R,
     builds (_createMultiRopes self elevation_angle) st (range num_ropes)
       (fun ropeInd prims =>
          joint_counts self (boxPath self) ropeInd prims /\
          exists box, cubes prims = [(boxPath self ropeInd, box)])).
Proof.
  intros Hlinks Hropes. split.
  - intros A HA st. eapply builds_impl; [apply vertical_ropes_log|].
    intros ropeInd prims ->. by apply vertical_joint_counts.
  - intros st. eapply builds_impl; [by apply multi_ropes_log|].
    intros ropeInd prims [fresh ->]. split; [by apply multi_joint_counts|].
    eexists. unfold multi_rope_prims, multi_rope_prims_head, multi_rope_prims_tail, boxPath.
    by destruct fresh.
Qed.

(** C2: in the radial layout of [N] assemblies, assembly [i] lies at the
    azimuth [i * 2 * PI / N]; its first link is at horizontal distance
    [payloadRadius + capsuleHalf * cos elevation] from the vertical axis
    through the payload, and link [k] is the first link moved by [k] link
    pitches along the direction of that azimuth and elevation. *)
Theorem radial_link_positions (st : Stage R) :
  (1 <= numLinks self)%Z ->
  num_ropes <> 0%Z ->
  builds (_createMultiRopes self elevation_angle) st (range num_ropes)
    (radial_positions self elevation_angle).
Proof.
  intros Hlinks Hropes. eapply builds_impl; [by apply multi_ropes_log|].
  intros ropeInd prims [fresh ->]. by apply multi_radial_positions.
Qed.

(** C3: in the radial layout every link of assembly [i] carries the same
    quaternion, the yaw about the vertical axis by the azimuth followed by
    the pitch by the elevation about the horizontal axis the yaw has turned;
    it turns a vector as the yaw and then that pitch do, and it takes the
    forward axis [(1, 0, 0)] to the direction vector of the assembly. *)
Theorem radial_link_orientation (st : Stage R) :
  (1 <= numLinks self)%Z ->
  num_ropes <> 0%Z ->
  builds (_createMultiRopes self elevation_angle) st (range num_ropes)
    (radial_orientation self elevation_angle).
Proof.
  intros Hlinks Hropes. eapply builds_impl; [by apply multi_ropes_log|].
  intros ropeInd prims [fresh ->]. by apply multi_radial_orientation.
Qed.


(** C5: on every cable joint the slide degree of freedom (the only one with
    a drive and a PhysX limit) has limit stiffness 11 times the drive
    stiffness, hence above it, limit damping equal to the drive damping,
    contact distance 1e-4 and force cap 10 * payloadMass * 9.81. *)
Theorem cable_joint_slide_policy (axis : string) :
  exists slide k_drive c_drive,
    instances_of "PhysicsDriveAPI" (_createCableJoint self axis) = ["PhysicsDriveAPI:" +:+ slide] /\
    instances_of "PhysxLimitAPI" (_createCableJoint self axis) = ["PhysxLimitAPI:" +:+ slide] /\
    attr_is (_createCableJoint self axis) (drive_stiffness slide) k_drive /\
    attr_is (_createCableJoint self axis) (drive_damping slide) c_drive /\
    attr_is (_createCableJoint self axis) (physxLimit_stiffness slide) (11 * k_drive) /\
    k_drive < 11 * k_drive /\
    attr_is (_createCableJoint self axis) (physxLimit_damping slide) c_drive /\
    attr_is (_createCableJoint self axis) (physxLimit_contactDistance slide) (1 / 10 ^ 4) /\
    attr_is (_createCableJoint self axis) (drive_maxForce slide) (10 * payload_mass * 9.81).
Proof.
  cable_axis_cases axis;
    [exists "transZ", 1e5, 1e3 | exists "transX", 1e5, 1e3 | exists "transY", 1e5, 1e3].
  all: split; [reflexivity|]; split; [reflexivity|].
  all: split; [attr_value 1e5|]; split; [attr_value 1e3|].
  all: split; [attr_value (11 * 1e5)|]; split; [reflexivity|].
  all: split; [attr_value 1e3|]; split; [attr_value 0.0001|].
  all: attr_value (10.0 * payload_mass * 9.81); unfold Qeq; simpl; lia.
Qed.

(** C6: for each selector X, Y, Z the cable joint bounds the translation
    along the selected axis to [-1, 0.01] (not the [_slideLimit] field) and
    drives it, locks the two other translations with [low = high = 0], and
    applies the limit schema to the three rotations without authoring a
    bound. *)
Theorem cable_joint_degrees_of_freedom (axis : string) :
  axis ∈ ["X"; "Y"; "Z"] ->
  attr_is (_createCableJoint self axis) (limit_low ("trans" +:+ axis)) (-1) /\
  attr_is (_createCableJoint self axis) (limit_high ("trans" +:+ axis)) 0.01 /\
  instances_of "PhysicsDriveAPI" (_createCableJoint self axis)
    = ["PhysicsDriveAPI:" +:+ ("trans" +:+ axis)] /\
  ~ (-1 == - _slideLimit self) /\
  length (orthogonal_translations axis) = 2%nat /\
  Forall (locked (_createCableJoint self axis)) (orthogonal_translations axis) /\
  Forall (unlimited (_createCableJoint self axis)) ["rotX"; "rotY"; "rotZ"].
Proof.
  intros Haxis. rewrite !elem_of_cons, elem_of_nil in Haxis.
  destruct Haxis as [-> | [-> | [-> | []]]].
  all: split; [attr_value (-1)|]; split; [attr_value 0.01|].
  all: split; [reflexivity|]; split; [by vm_compute|]; split; [reflexivity|].
  all: split; [repeat (apply List.Forall_cons; [split; attr_value 0.0|]); apply List.Forall_nil|].
  all: repeat (apply List.Forall_cons; [unlimited_dof|]); apply List.Forall_nil.
Qed.

(** C8: in the radial layout the payload attachment of assembly [i] anchors
    on the payload at [(payloadRadius * cos a, payloadRadius * sin a, 0)]
    with the orientation of the assembly's links (not the identity as soon
    as the half azimuth or the half elevation has a non-zero sine), and on
    the first link at [(- capsuleHalf, 0, 0)] with the identity
    orientation. *)
Theorem radial_payload_attachment (st : Stage R) :
  (1 <= numLinks self)%Z ->
  num_ropes <> 0%Z ->
  builds (_createMultiRopes self elevation_angle) st (range num_ropes)
    (radial_payload_anchor self elevation_angle).
Proof.
  intros Hlinks Hropes. eapply builds_impl; [by apply multi_ropes_log|].
  intros ropeInd prims [fresh ->]. by apply multi_radial_payload_anchor.
Qed.

(** C9, as the code has it: with at least one link, every link index of
    every joint group of either layout lies in [0, numLinks): the chain
    joints use [i] and [i + 1] for [i] in [0, numLinks - 1), the payload
    attachment link 0 and the structure attachment link [numLinks - 1]. *)
Theorem link_indices_within_range :
  (1 <= numLinks self)%Z ->
  num_ropes <> 0%Z ->
  (forall A (HA : Scalar A) (st : Stage A),
     builds (_createVerticalRopes self) st (range num_ropes) (link_indices_ok self)) /\
  (forall st : Stage R,
     builds (_createMultiRopes self elevation_angle) st (range num_ropes)
       (link_indices_ok self)).
Proof.
  intros Hlinks Hropes. split.
  - intros A HA st. eapply builds_impl; [apply vertical_ropes_log|].
    intros ropeInd prims ->. by apply vertical_link_indices_ok.
  - intros st. eapply builds_impl; [by apply multi_ropes_log|].
    intros ropeInd prims [fresh ->]. by apply multi_link_indices_ok.
Qed.

End properties.

(** C7, the code at a radial input: with two ropes of length 1 the links lie
    along their X axis, the chain joints slide along [transX], and the box
    joint of each rope, whose frame on the link is the identity, locks
    [rotZ] and bounds [rotX], the rotation about the links' axis, by 160
    degrees: the twist is not locked. *)
Theorem box_joint_leaves_twist_free :
  exists st,
    create demo_stage 2 1 1 2 0 [] = _createMultiRopes (demo_config 2 1) 0 st /\
    builds (_createMultiRopes (demo_config 2 1) 0) st [0%Z; 1%Z]
      (radial_anchor_joint (demo_config 2 1)).
Proof.
  eexists. split.
  - apply (create_radial_path demo_stage 2 1 1 2 0%R eq_refl []). lia.
  - change [0%Z; 1%Z] with (range (_numRopes (demo_config 2 1))).
    eapply builds_impl; [apply multi_ropes_log|].
    + by vm_compute.
    + by vm_compute.
    + intros ropeInd prims [fresh ->]. apply multi_radial_anchor_joint.
Qed.

(* ===================================================================== *)
(** ** The properties at concrete inputs *)
(* ===================================================================== *)

Example numLinks_unit_rope : numLinks (demo_config 1 1) = 10%Z.
Proof. reflexivity. Qed.

Example numLinks_short_rope : numLinks (demo_config 1 0.05) = 0%Z.
Proof. reflexivity. Qed.

Example vertical_unit_rope_chain :
  omap (fun e => if decide (e.1 = ["World"; "Rope0"; "jointInstancer"])
                 then Some (physicsBody0Indices e.2, physicsBody1Indices e.2) else None)
    (joint_instancers (_createVerticalRopes (A:=Q) (demo_config 1 0.35) []).1)
  = [([0; 1], [1; 2])]%Z.
Proof. vm_compute. reflexivity. Qed.

Lemma chain_and_attachment_joint_counts_witness :
  (1 <= numLinks (demo_config 3 1))%Z /\
  builds (_createVerticalRopes (A:=Q) (demo_config 3 1)) [] (range 3)
    (joint_counts (demo_config 3 1) (fun _ => _tableTopPath (demo_config 3 1))) /\
  builds (_createMultiRopes (demo_config 3 1) 0) [] (range 3)
    (fun ropeInd prims =>
       joint_counts (demo_config 3 1) (boxPath (demo_config 3 1)) ropeInd prims /\
       exists box, cubes prims = [(boxPath (demo_config 3 1) ropeInd, box)]).
Proof.
  assert (1 <= numLinks (demo_config 3 1))%Z as Hlinks by (vm_compute; discriminate).
  assert (3 <> 0)%Z as Hropes by lia.
  destruct (chain_and_attachment_joint_counts demo_stage 3 1 1 2 0%R Hlinks Hropes)
    as [Hvertical Hradial].
  split; [exact Hlinks|]. split; [apply Hvertical | apply Hradial].
Defined.

Lemma radial_link_positions_witness :
  (1 <= numLinks (demo_config 4 1))%Z /\
  builds (_createMultiRopes (demo_config 4 1) (PI / 4)) [] (range 4)
    (radial_positions (demo_config 4 1) (PI / 4)).
Proof.
  assert (1 <= numLinks (demo_config 4 1))%Z as Hlinks by (vm_compute; discriminate).
  assert (4 <> 0)%Z as Hropes by lia.
  split; [exact Hlinks|].
  exact (radial_link_positions demo_stage 4 1 1 2 (PI / 4)%R [] Hlinks Hropes).
Defined.

Lemma radial_link_orientation_witness :
  (1 <= numLinks (demo_config 4 1))%Z /\
  builds (_createMultiRopes (demo_config 4 1) (PI / 4)) [] (range 4)
    (radial_orientation (demo_config 4 1) (PI / 4)).
Proof.
  assert (1 <= numLinks (demo_config 4 1))%Z as Hlinks by (vm_compute; discriminate).
  assert (4 <> 0)%Z as Hropes by lia.
  split; [exact Hlinks|].
  exact (radial_link_orientation demo_stage 4 1 1 2 (PI / 4)%R [] Hlinks Hropes).
Defined.


Lemma cable_joint_degrees_of_freedom_witness :
  "X" ∈ ["X"; "Y"; "Z"] /\
  attr_is (_createCableJoint (demo_config 2 1) "X") (limit_low "transX") (-1) /\
  attr_is (_createCableJoint (demo_config 2 1) "X") (limit_high "transX") 0.01 /\
  Forall (locked (_createCableJoint (demo_config 2 1) "X")) ["transY"; "transZ"] /\
  Forall (unlimited (_createCableJoint (demo_config 2 1) "X")) ["rotX"; "rotY"; "rotZ"].
Proof.
  assert ("X" ∈ ["X"; "Y"; "Z"]) as HX by apply list_elem_of_here.
  split; [exact HX|].
  destruct (cable_joint_degrees_of_freedom demo_stage 2 1 1 2 "X" HX)
    as (Hlow & Hhigh & _ & _ & _ & Hlocked & Hfree).
  split; [exact Hlow|]. split; [exact Hhigh|]. split; [exact Hlocked | exact Hfree].
Defined.

Lemma radial_payload_attachment_witness :
  (1 <= numLinks (demo_config 4 1))%Z /\
  builds (_createMultiRopes (demo_config 4 1) (PI / 4)) [] (range 4)
    (radial_payload_anchor (demo_config 4 1) (PI / 4)).
Proof.
  assert (1 <= numLinks (demo_config 4 1))%Z as Hlinks by (vm_compute; discriminate).
  assert (4 <> 0)%Z as Hropes by lia.
  split; [exact Hlinks|].
  exact (radial_payload_attachment demo_stage 4 1 1 2 (PI / 4)%R [] Hlinks Hropes).
Defined.

Lemma link_indices_within_range_witness :
  (1 <= numLinks (demo_config 3 1))%Z /\
  builds (_createVerticalRopes (A:=Q) (demo_config 3 1)) [] (range 3)
    (link_indices_ok (demo_config 3 1)) /\
  builds (_createMultiRopes (demo_config 3 1) 0) [] (range 3) (link_indices_ok (demo_config 3 1)).
Proof.
  assert (1 <= numLinks (demo_config 3 1))%Z as Hlinks by (vm_compute; discriminate).
  assert (3 <> 0)%Z as Hropes by lia.
  destruct (link_indices_within_range demo_stage 3 1 1 2 0%R Hlinks Hropes)
    as [Hvertical Hradial].
  split; [exact Hlinks|]. split; [apply Hvertical | apply Hradial].
Defined.


(** C1, refuted as stated (regardless of the number of links): a rope
    length of 0.05 is accepted and gives no link.  In the vertical layout
    the assembly [create] builds has no chain joint, which is not
    [numLinks - 1]; in the radial layout [create] raises in rope 0 after
    the payload attachment, so that one attachment group is authored, not
    two, and no structure. *)
Lemma short_rope_joint_counts_differ :
  numLinks (demo_config 1 0.05) = 0%Z /\
  (exists st,
     create demo_stage 1 0.05 1 2 0 [] = _createVerticalRopes (demo_config 1 0.05) st /\
     builds (_createVerticalRopes (demo_config 1 0.05)) st [0%Z]
       (fun ropeInd prims =>
          empty_assembly (demo_config 1 0.05) ropeInd prims /\
          ~ joint_counts (demo_config 1 0.05) (fun _ => _tableTopPath (demo_config 1 0.05))
              ropeInd prims)) /\
  (exists st chain payloadCon,
     create demo_stage 2 0.05 1 2 0 [] = (st, Raise UnboundLocalError) /\
     joint_instancers st
     = [ (AppendChild (ropeScope (demo_config 2 0.05) 0) "jointInstancer", chain);
         (AppendChild (ropeScope (demo_config 2 0.05) 0) "ropePayloadCon", payloadCon) ] /\
     joint_count chain = 0%nat /\
     joint_count payloadCon = 1%nat /\
     cubes st = []).
Proof.
  split; [reflexivity|]. split.
  - destruct (create_vertical_path demo_stage 1 0.05 1 2 0 eq_refl [])
      as (table & Hcreate & _); [lia|].
    eexists. split; [exact Hcreate|].
    change [0%Z] with (range (_numRopes (demo_config 1 0.05))).
    eapply builds_impl; [apply vertical_ropes_log|].
    intros ropeInd prims ->. split; [by apply vertical_empty_assembly|].
    intros (pi & chain & payloadCon & anchorCon & _ & _ & _ & _ & _ & _ & _ & _ & _ & Hcount & _).
    change (numLinks (demo_config 1 0.05)) with 0%Z in Hcount. lia.
  - eexists _, _, _.
    rewrite (create_radial_path demo_stage 2 0.05 1 2 0%R eq_refl []) by lia.
    rewrite multi_ropes_unbound by (by vm_compute).
    split; [reflexivity|].
    unfold multi_rope_prims_head, joint_group.
    split; [reflexivity|]. split; [reflexivity|]. split; reflexivity.
Qed.


(** C9, refuted as stated: a rope length of 0.05 is accepted, gives no link,
    and the one rope [create] then builds has a joint group with a link
    index outside the empty link range (the table attachment holds -1). *)
Lemma short_rope_link_index_out_of_range :
  numLinks (demo_config 1 0.05) = 0%Z /\
  exists st,
    create demo_stage 1 0.05 1 2 0 [] = _createVerticalRopes (demo_config 1 0.05) st /\
    builds (_createVerticalRopes (demo_config 1 0.05)) st [0%Z]
      (fun ropeInd prims =>
         some_link_index_out_of_range (linksPath (demo_config 1 0.05) ropeInd)
           (numLinks (demo_config 1 0.05)) prims).
Proof.
  split; [reflexivity|].
  destruct (create_vertical_path demo_stage 1 0.05 1 2 0 eq_refl [])
    as (table & Hcreate & _); [lia|].
  eexists. split; [exact Hcreate|].
  change [0%Z] with (range (_numRopes (demo_config 1 0.05))).
  eapply builds_impl; [apply vertical_ropes_log|].
  intros ropeInd prims ->. apply vertical_link_index_out_of_range. by vm_compute.
Qed.

(** The radial layout on the same short rope: [create] raises at rope 0,
    after authoring its link collection, chain group and payload
    attachment. *)
Lemma short_rope_radial_raises :
  create demo_stage 2 0.05 1 2 0 []
  = (payload_prims (demo_config 2 0.05) ++ multi_rope_prims_head (demo_config 2 0.05) 0 0,
     Raise UnboundLocalError).
Proof.
  rewrite (create_radial_path demo_stage 2 0.05 1 2 0%R eq_refl []) by lia.
  apply multi_ropes_unbound; by vm_compute.
Qed.

(* ===================================================================== *)
(** ** Further properties: errors and edge cases of the entry points *)
(* ===================================================================== *)

(** X1: on a stage whose metres per unit times 100 is zero, [create] raises
    [ZeroDivisionError] at the scale factor and authors nothing. *)
Theorem create_zero_scale_raises :
  forall stage num_ropes rope_length payload_mass load_height elevation_angle (st : Stage R),
    GetStageMetersPerUnit stage * 100.0 == 0 ->
    create stage num_ropes rope_length payload_mass load_height elevation_angle st
    = (st, Raise ZeroDivisionError).
Proof.
  intros stage num_ropes rope_length payload_mass load_height elevation_angle st Hzero.
  unfold create. apply Qeq_bool_iff in Hzero. by rewrite Hzero.
Qed.

Lemma create_zero_scale_raises_witness :
  GetStageMetersPerUnit (mkStage ["World"] 0 UpZ) * 100.0 == 0 /\
  create (mkStage ["World"] 0 UpZ) 3 1 1 2 0 [] = ([], Raise ZeroDivisionError).
Proof.
  assert (GetStageMetersPerUnit (mkStage ["World"] 0 UpZ) * 100.0 == 0) as Hzero by reflexivity.
  split; [exact Hzero|].
  exact (create_zero_scale_raises (mkStage ["World"] 0 UpZ) 3 1 1 2 0%R [] Hzero).
Defined.







(* ===================================================================== *)
(** ** Further properties: the joint archetypes *)
(* ===================================================================== *)

(** X5: whatever the object's fields, the fixed joint has the limit schema
    on all six degrees of freedom, each with the inverted range
    [low = 1 > high = -1], and neither a drive nor a PhysX limit. *)
Theorem fixed_joint_inverted_ranges :
  forall self : RigidBodyRopes,
    Forall (inverted (_createFixJoint self))
      ["transX"; "transY"; "transZ"; "rotX"; "rotY"; "rotZ"] /\
    Forall (fun d => attr_is (_createFixJoint self) (limit_low d) 1 /\
                     attr_is (_createFixJoint self) (limit_high d) (-1))
      ["transX"; "transY"; "transZ"; "rotX"; "rotY"; "rotZ"] /\
    length (instances_of "PhysicsLimitAPI" (_createFixJoint self)) = 6%nat /\
    instances_of "PhysicsDriveAPI" (_createFixJoint self) = [] /\
    instances_of "PhysxLimitAPI" (_createFixJoint self) = [].
Proof.
  intros self.
  split.
  { repeat (apply List.Forall_cons;
            [exists 1.0, (-1.0); split; [attr_value 1.0|]; split; [attr_value (-1.0)|]; reflexivity|]).
    apply List.Forall_nil. }
  split.
  { repeat (apply List.Forall_cons; [split; [attr_value 1.0 | attr_value (-1.0)]|]).
    apply List.Forall_nil. }
  split; [reflexivity|]. split; reflexivity.
Qed.

(** X6: whatever the object's fields, the universal joint locks the three
    translations and [rotZ] with [low = high = 0], bounds [rotX] and [rotY]
    by plus and minus [_coneAngleLimit], and carries neither a drive nor a
    PhysX limit: it is a pure limit joint. *)
Theorem universal_joint_limits_any_object :
  forall self : RigidBodyRopes,
    Forall (locked (_createUniJoint self)) ["transX"; "transY"; "transZ"; "rotZ"] /\
    Forall (fun d => cone_limited (_createUniJoint self) d (_coneAngleLimit self))
      ["rotX"; "rotY"] /\
    length (instances_of "PhysicsLimitAPI" (_createUniJoint self)) = 6%nat /\
    instances_of "PhysicsDriveAPI" (_createUniJoint self) = [] /\
    instances_of "PhysxLimitAPI" (_createUniJoint self) = [].
Proof.
  intros self.
  split; [repeat (apply List.Forall_cons; [split; attr_value 0.0|]); apply List.Forall_nil|].
  split.
  { repeat (apply List.Forall_cons;
            [split; [attr_value (- _coneAngleLimit self) | attr_value (_coneAngleLimit self)]|]).
    apply List.Forall_nil. }
  split; [reflexivity|]. split; reflexivity.
Qed.

Lemma multi_radial_payload_slide (self : RigidBodyRopes) (elevation_angle : R) (ropeInd : Z)
    (fresh : bool) :
  radial_payload_slide self ropeInd (multi_rope_prims self elevation_angle ropeInd fresh).
Proof.
  unfold radial_payload_slide, multi_rope_prims, multi_rope_prims_head, multi_rope_prims_tail,
    joint_group.
  eexists _, _, _, _, _, _, _, (_createCableJoint self "X"), (_createCableJoint self "Z").
  split; [exists "ropeBoxCon"; by destruct fresh|].
  split; [by destruct fresh|].
  split; [reflexivity|]. split; [reflexivity|].
  split; [destruct fresh; apply list_elem_of_here|].
  split; [reflexivity|].
  split; [destruct fresh; apply list_elem_of_further, list_elem_of_here|].
  split; [reflexivity|]. split; [reflexivity|]. split; [reflexivity|].
  split; [split; attr_value 0.0|]. split; [split; attr_value 0.0|].
  split; [reflexivity|].
  split; split; attr_value 0.0.
Qed.

(** X7: in the radial layout the links lie along X and the chain joints
    slide along [transX] with [transY], [transZ] locked, but the payload
    attachment, built with the default axis and framed on the link by the
    identity, slides along [transZ] and locks [transX], the translation along
    the link. *)
Theorem radial_payload_joint_slides_across_the_link :
  forall (self : RigidBodyRopes) (elevation_angle : R) (st : Stage R),
    (1 <= numLinks self)%Z ->
    _numRopes self <> 0%Z ->
    builds (_createMultiRopes self elevation_angle) st (range (_numRopes self))
      (radial_payload_slide self).
Proof.
  intros self elevation_angle st Hlinks Hropes.
  eapply builds_impl; [by apply multi_ropes_log|].
  intros ropeInd prims [fresh ->]. apply multi_radial_payload_slide.
Qed.

Lemma radial_payload_joint_slides_across_the_link_witness :
  (1 <= numLinks (demo_config 4 1))%Z /\
  builds (_createMultiRopes (demo_config 4 1) 0) [] (range 4)
    (radial_payload_slide (demo_config 4 1)).
Proof.
  assert (1 <= numLinks (demo_config 4 1))%Z as Hlinks by (vm_compute; discriminate).
  assert (_numRopes (demo_config 4 1) <> 0%Z) as Hropes by (vm_compute; discriminate).
  split; [exact Hlinks|].
  exact (radial_payload_joint_slides_across_the_link (demo_config 4 1) 0%R [] Hlinks Hropes).
Defined.

(* ===================================================================== *)
(** ** Further properties: the helpers *)
(* ===================================================================== *)

Section helpers.
Variable stage : UsdStage.
Variable num_ropes : Z.
Variables rope_length payload_mass load_height : Q.
Variable vec : Vec3 Q.

Local Abbreviation self := (configure stage num_ropes rope_length payload_mass load_height).
Local Abbreviation s := (_scaleFactor self).

(** X8: [orient_dim] scales the three components by the scale factor and
    permutes them by the stage's up axis: unchanged for Z, rotated to
    [(y, z, x)] for Y, and with [x] and [z] exchanged for X. *)
Theorem orient_dim_permutes :
  orient_dim self vec
  = match GetStageUpAxis stage with
    | UpZ => mkVec3 (vx vec * s) (vy vec * s) (vz vec * s)
    | UpY => mkVec3 (vy vec * s) (vz vec * s) (vx vec * s)
    | UpX => mkVec3 (vz vec * s) (vy vec * s) (vx vec * s)
    end /\
  [vx (orient_dim self vec); vy (orient_dim self vec); vz (orient_dim self vec)]
    ≡ₚ [vx vec * s; vy vec * s; vz vec * s].
Proof.
  unfold orient_dim. cbn [_orientation configure].
  destruct (GetStageUpAxis stage); cbn [nth Vec3_get vx vy vz]; (split; [reflexivity|]).
  all: solve_Permutation.
Qed.

(** X9: [orient_pos] is [orient_dim] after adding the floor offset to the
    third component of its argument, and the floor offset is minus the table
    height: a point at table height gets 0 on the stage's up axis. *)
Theorem orient_pos_shifts_to_table :
  orient_pos self vec
  = orient_dim self (mkVec3 (vx vec) (vy vec) (vz vec + _floorOffset self)) /\
  match GetStageUpAxis stage with
  | UpZ => vz
  | UpY => vy
  | UpX => vx
  end (orient_pos self (mkVec3 (vx vec) (vy vec) (_tableHeight self))) == 0.
Proof.
  unfold orient_pos, orient_dim. cbn [_orientation configure].
  destruct (GetStageUpAxis stage); cbn [nth Vec3_get vx vy vz Nat.eqb]; (split; [reflexivity|]).
  all: cbn [_floorOffset _tableHeight configure]; ring.
Qed.
End helpers.

(** X10: [get_path] splits [rootPath] at the slashes and drops the empty
    pieces, so that its segments are non-empty and without slash.  It
    returns the default prim path followed by the segments and [primPath];
    afterwards that path and the path to every segment are on the stage; it
    authors only [Xform]s, only at paths that were missing, and none twice;
    called again on the result it authors nothing. *)
Theorem get_path_defines_missing_scopes :
  forall A (self : RigidBodyRopes) (rootPath primPath : string) (st : Stage A),
    Forall (fun seg => seg <> EmptyString /\ slash_free seg = true) (segments rootPath) /\
    exists ext,
      get_path self rootPath primPath st
      = (st ++ ext, Ok (_defaultPrimPath self ++ segments rootPath ++ [primPath])) /\
      (forall k, (1 <= k <= length (segments rootPath))%nat ->
         _defaultPrimPath self ++ take k (segments rootPath) ∈ (st ++ ext).*1) /\
      _defaultPrimPath self ++ segments rootPath ++ [primPath] ∈ (st ++ ext).*1 /\
      Forall (fun e => e.2 = XformPrim /\ e.1 ∉ st.*1) ext /\
      NoDup ext.*1 /\
      get_path self rootPath primPath (st ++ ext)
      = (st ++ ext, Ok (_defaultPrimPath self ++ segments rootPath ++ [primPath])).
Proof.
  intros A self rootPath primPath st. split; [apply segments_pieces|].
  destruct (get_path_log self rootPath primPath st) as (ext & Hrun & Hon & Hleaf & Hnew & Hdup).
  exists ext.
  split; [exact Hrun|]. split; [exact Hon|]. split; [exact Hleaf|].
  split; [exact Hnew|]. split; [exact Hdup|].
  by apply get_path_present.
Qed.

(** A root of several segments, with empty pieces, and the two roots the
    builders pass. *)
Example segments_nested : segments "Rooms//Table/" = ["Rooms"; "Table"].
Proof. reflexivity. Qed.

Example segments_empty : segments "" = [].
Proof. reflexivity. Qed.

Example get_path_nested :
  get_path (A:=Q) (demo_config 1 1) "Rooms/Table" "tableTopActor"
    [(["World"; "Rooms"], XformPrim)]
  = ([(["World"; "Rooms"], XformPrim);
      (["World"; "Rooms"; "Table"], XformPrim);
      (["World"; "Rooms"; "Table"; "tableTopActor"], XformPrim)],
     Ok ["World"; "Rooms"; "Table"; "tableTopActor"]).
Proof. reflexivity. Qed.

(* ===================================================================== *)
(** ** Further properties: [calculate_orientation] *)
(* ===================================================================== *)

Lemma GetNormalized_long (v : Vec3 R) :
  (GF_MIN_VECTOR_LENGTH < Vec3_GetLength v)%R ->
  GetNormalized v = Vec3_scale (/ Vec3_GetLength v) v /\
  Vec3_norm2 (GetNormalized v) = 1%R.
Proof.
  intros Hlong. unfold GetNormalized.
  destruct (Rlt_dec GF_MIN_VECTOR_LENGTH (Vec3_GetLength v)) as [_|Hn]; [|done].
  assert (0 < GF_MIN_VECTOR_LENGTH)%R as Heps by (unfold GF_MIN_VECTOR_LENGTH; simpl; lra).
  assert (Vec3_GetLength v <> 0)%R as Hne by lra.
  assert (Vec3_GetLength v * Vec3_GetLength v = Vec3_norm2 v)%R as Hsq.
  { unfold Vec3_GetLength, Vec3_norm2. apply sqrt_sqrt.
    pose proof (Rle_0_sqr (vx v)). pose proof (Rle_0_sqr (vy v)). pose proof (Rle_0_sqr (vz v)).
    unfold Rsqr in *. lra. }
  split.
  - apply Vec3_eq; simpl; unfold Rdiv; ring.
  - unfold Vec3_norm2 in *. simpl. field_simplify_eq; [|done]. lra.
Qed.

(** X12: for an axis longer than the minimal vector length,
    [calculate_orientation] returns a unit quaternion whose [Transform] is
    the rotation by [angle] about the normalised axis; it leaves the axis
    itself in place and does not depend on the length of the axis. *)
Theorem calculate_orientation_rotates_about_axis :
  forall (angle : R) (axis : Vec3 R),
    (GF_MIN_VECTOR_LENGTH < Vec3_GetLength axis)%R ->
    Quat_norm2 (calculate_orientation angle axis) = 1%R /\
    (forall v, Quat_Transform (calculate_orientation angle axis) v
               = rotate_about (GetNormalized axis) angle v) /\
    Quat_Transform (calculate_orientation angle axis) axis = axis /\
    (forall k, (0 < k)%R ->
       (GF_MIN_VECTOR_LENGTH < Vec3_GetLength (Vec3_scale k axis))%R ->
       calculate_orientation angle (Vec3_scale k axis) = calculate_orientation angle axis).
Proof.
  intros angle axis Hlong.
  destruct (GetNormalized_long axis Hlong) as [Hscale Hunit].
  assert (0 < GF_MIN_VECTOR_LENGTH)%R as Heps by (unfold GF_MIN_VECTOR_LENGTH; simpl; lra).
  pose proof (sin_cos_unit (angle / 2)) as Hhalf.
  assert (Quat_norm2 (calculate_orientation angle axis) = 1%R) as Hq.
  { unfold Quat_norm2, calculate_orientation, Vec3_norm2 in *. simpl.
    set (n := GetNormalized axis) in *.
    set (c := cos (angle / 2)) in *. set (s := sin (angle / 2)) in *. nsatz. }
  assert (forall v, Quat_Transform (calculate_orientation angle axis) v
                    = rotate_about (GetNormalized axis) angle v) as Hrot.
  { intros v. rewrite Quat_Transform_unit by exact Hq.
    unfold rotate_about, calculate_orientation, Vec3_norm2, Vec3_dot, Vec3_cross, Quat_norm2 in *.
    rewrite (half_angle_cos angle), (half_angle_sin angle).
    set (n := GetNormalized axis) in *.
    set (c := cos (angle / 2)) in *. set (s := sin (angle / 2)) in *.
    clearbody n c s. clear Hscale. destruct n as [n1 n2 n3], v as [v1 v2 v3].
    apply Vec3_eq; simpl in *; nsatz. }
  split; [exact Hq|]. split; [exact Hrot|]. split.
  - rewrite Hrot.
    assert (axis = Vec3_scale (Vec3_GetLength axis) (GetNormalized axis)) as Haxis.
    { rewrite Hscale. apply Vec3_eq; simpl; field; lra. }
    set (n := GetNormalized axis) in *. set (l := Vec3_GetLength axis) in *.
    rewrite Haxis. clearbody n l. clear Haxis Hscale Hrot Hq.
    unfold rotate_about, Vec3_dot, Vec3_cross, Vec3_norm2 in *.
    destruct n as [n1 n2 n3]. apply Vec3_eq; simpl in *; nsatz.
  - intros k Hk Hklong. unfold calculate_orientation.
    destruct (GetNormalized_long _ Hklong) as [Hkscale _].
    rewrite Hkscale, Hscale.
    assert (Vec3_GetLength (Vec3_scale k axis) = k * Vec3_GetLength axis)%R as Hlen.
    { unfold Vec3_GetLength. simpl.
      replace (k * vx axis * (k * vx axis) + k * vy axis * (k * vy axis)
               + k * vz axis * (k * vz axis))%R
        with (k * k * (vx axis * vx axis + vy axis * vy axis + vz axis * vz axis))%R by ring.
      rewrite sqrt_mult_alt by nra. rewrite sqrt_square by lra. reflexivity. }
    rewrite Hlen. apply Quat_eq; simpl; try reflexivity; field; split; lra.
Qed.

Lemma calculate_orientation_rotates_about_axis_witness :
  (GF_MIN_VECTOR_LENGTH < Vec3_GetLength (mkVec3 0 (-1) 0))%R /\
  Quat_norm2 (calculate_orientation (PI / 3) (mkVec3 0 (-1) 0)%R) = 1%R /\
  Quat_Transform (calculate_orientation (PI / 3) (mkVec3 0 (-1) 0)%R) (mkVec3 0 (-1) 0)%R
  = (mkVec3 0 (-1) 0)%R.
Proof.
  assert (GF_MIN_VECTOR_LENGTH < Vec3_GetLength (mkVec3 0 (-1) 0))%R as Hlong.
  { unfold Vec3_GetLength, GF_MIN_VECTOR_LENGTH. simpl.
    replace (0 * 0 + -1 * -1 + 0 * 0)%R with 1%R by ring. rewrite sqrt_1. lra. }
  split; [exact Hlong|].
  destruct (calculate_orientation_rotates_about_axis (PI / 3) (mkVec3 0 (-1) 0)%R Hlong)
    as (Hunit & _ & Hfix & _).
  split; [exact Hunit | exact Hfix].
Defined.

(** X13: for the zero axis nothing is raised: the axis is divided by the
    minimal vector length and stays zero, and the result is the purely real
    quaternion [(cos (angle / 2), 0, 0, 0)], of squared length
    [cos (angle / 2) ^ 2], which is not a unit quaternion unless
    [sin (angle / 2) = 0]. *)
Theorem calculate_orientation_zero_axis :
  forall angle : R,
    calculate_orientation angle (mkVec3 0 0 0)%R = mkQuat (cos (angle / 2)) 0%R 0%R 0%R /\
    (Quat_norm2 (calculate_orientation angle (mkVec3 0 0 0)%R) = 1%R <-> sin (angle / 2) = 0%R).
Proof.
  intros angle.
  assert (calculate_orientation angle (mkVec3 0 0 0)%R = mkQuat (cos (angle / 2)) 0%R 0%R 0%R)
    as Hq.
  { unfold calculate_orientation, GetNormalized, Vec3_GetLength. simpl.
    replace (0 * 0 + 0 * 0 + 0 * 0)%R with 0%R by ring. rewrite sqrt_0.
    destruct (Rlt_dec GF_MIN_VECTOR_LENGTH 0) as [Hlt|_].
    - exfalso. unfold GF_MIN_VECTOR_LENGTH in Hlt. simpl in Hlt. lra.
    - apply Quat_eq; simpl; unfold Rdiv; ring. }
  split; [exact Hq|]. rewrite Hq. unfold Quat_norm2. simpl.
  pose proof (sin_cos_unit (angle / 2)) as Hu. split; intros H; nra.
Qed.

(* ===================================================================== *)
(** ** Further properties: joint frames in world space *)
(* ===================================================================== *)

Lemma link_pose_fmap (f : Z -> Vec3 R) (g : Z -> Quat R) (n b : Z) (protos : list SdfPath)
    (idx : list Z) :
  (0 <= b < n)%Z ->
  link_pose (mkPointInstancer protos idx (f <$> range n) (g <$> range n)) b = Some (f b, g b).
Proof.
  intros Hb. unfold link_pose. cbn [positions orientations].
  rewrite decide_True by lia. by rewrite !lookup_fmap_range.
Qed.

Lemma chain_arrays_lookup (n : Z) (p0 p1 : Vec3 R) (j : nat) :
  (j < Z.to_nat (n - 1))%nat ->
  let a := chain_joint_arrays n p0 p1 in
  jointBody0Indices a !! j = Some (Z.of_nat j) /\
  jointBody1Indices a !! j = Some (Z.of_nat j + 1)%Z /\
  jointLocalPos0 a !! j = Some p0 /\
  jointLocalPos1 a !! j = Some p1 /\
  jointLocalRot0 a !! j = Some Quat_identity /\
  jointLocalRot1 a !! j = Some Quat_identity.
Proof.
  intros Hj a. subst a. unfold chain_joint_arrays.
  cbn [jointBody0Indices jointBody1Indices jointLocalPos0 jointLocalPos1 jointLocalRot0
       jointLocalRot1].
  unfold range. rewrite !list_lookup_fmap, !lookup_seqZ_lt by lia. done.
Qed.

Lemma Quat_Transform_identity (v : Vec3 R) : Quat_Transform Quat_identity v = v.
Proof.
  rewrite Quat_Transform_unit by (simpl; ring). destruct v. apply Vec3_eq; simpl; ring.
Qed.

Lemma Quat_Transform_scale (q : Quat R) (k : R) (v : Vec3 R) :
  Quat_norm2 q = 1%R -> Quat_Transform q (Vec3_scale k v) = Vec3_scale k (Quat_Transform q v).
Proof.
  intros Hq. rewrite !Quat_Transform_unit by exact Hq.
  destruct q, v. apply Vec3_eq; simpl; ring.
Qed.

Lemma rope_orientation_unit (a e : R) : Quat_norm2 (rope_orientation a e) = 1%R.
Proof.
  rewrite rope_orientation_components. unfold Quat_norm2. simpl.
  pose proof (sin_cos_unit (a / 2)). pose proof (sin_cos_unit (e / 2)). nsatz.
Qed.

(** The link orientation takes a point on the local X axis to the same
    distance along the direction of the rope. *)
Lemma rope_orientation_along (a e c : R) :
  Quat_Transform (rope_orientation a e) (mkVec3 c 0 0)%R = Vec3_scale c (direction a e).
Proof.
  rewrite <- rope_orientation_forward.
  rewrite <- Quat_Transform_scale by apply rope_orientation_unit.
  f_equal. apply Vec3_eq; simpl; ring.
Qed.

Lemma Q2R_inject_Z (k : Z) : Q2R (inject_Z k) = IZR k.
Proof. unfold Q2R. simpl. field. Qed.

Lemma Q2R_half (x : Q) : Q2R (x * 0.5) = (Q2R x / 2)%R.
Proof. rewrite Q2R_mult. unfold Q2R at 2. simpl. field. Qed.

Lemma Q2R_zero : Q2R 0.0 = 0%R.
Proof. unfold Q2R. simpl. field. Qed.

Lemma multi_radial_frames (self : RigidBodyRopes) (elevation_angle : R) (ropeInd : Z)
    (fresh : bool) :
  _payloadPos self = mkVec3 0.0 0.0 (_initLoadHeight self) ->
  (1 <= numLinks self)%Z ->
  radial_frames self ropeInd (multi_rope_prims self elevation_angle ropeInd fresh).
Proof.
  intros Hpos Hn.
  unfold radial_frames, multi_rope_prims, multi_rope_prims_head, multi_rope_prims_tail, joint_group.
  eexists _, _, _, _, _, _.
  split; [split; [by destruct fresh | split; array_lengths]|].
  split; [exists "ropeBoxCon"; by destruct fresh|].
  split; [by destruct fresh|].
  split; [by split|]. split; [by split|]. split; [by split|].
  split.
  { cbn [orientations cube_orient]. apply Forall_fmap, Forall_true. intros k. cbn.
    split; [reflexivity | apply rope_orientation_unit]. }
  set (a := rope_angle self ropeInd).
  set (q := rope_orientation a elevation_angle).
  split; [|split].
  - (* chain joints *)
    intros j Hj. unfold joint_count in Hj.
    cbn [physicsProtoIndices jointMeshIndices chain_joint_arrays] in Hj.
    unfold range in Hj. rewrite length_fmap, length_seqZ in Hj.
    cbn [physicsBody0Indices physicsBody1Indices physicsLocalPos0s physicsLocalPos1s
         physicsLocalRot0s physicsLocalRot1s].
    edestruct (chain_arrays_lookup (numLinks self)) as (H0 & H1 & H2 & H3 & H4 & H5);
      [exact Hj|].
    eexists _, _, _, _, _, _, _, _.
    split; [exact H0|]. split; [exact H1|]. split; [exact H2|]. split; [exact H3|].
    split; [exact H4|]. split; [exact H5|].
    split; [apply link_pose_fmap; lia|]. split; [apply link_pose_fmap; lia|].
    split; [|reflexivity].
    unfold world_anchor. cbn [fst snd]. fold a. fold q. unfold q.
    rewrite !rope_orientation_along. unfold multi_link_position. fold a.
    rewrite Q2R_opp, plus_IZR, Q2R_half.
    apply Vec3_eq; simpl; field.
  - (* payload attachment *)
    intros j Hj. unfold joint_count in Hj. cbn in Hj.
    assert (j = 0%nat) as -> by lia.
    cbn [physicsBody0Indices physicsBody1Indices physicsLocalPos0s physicsLocalPos1s
         physicsLocalRot0s physicsLocalRot1s jointBody0Indices jointBody1Indices
         jointLocalPos0 jointLocalPos1 jointLocalRot0 jointLocalRot1].
    eexists _, _, _, _, _, _, _, _.
    split; [reflexivity|]. split; [reflexivity|]. split; [reflexivity|].
    split; [reflexivity|]. split; [reflexivity|]. split; [reflexivity|].
    split; [reflexivity|]. split; [apply link_pose_fmap; lia|].
    split.
    + unfold world_anchor, payload_pose. cbn [fst snd]. fold a. fold q. unfold q.
      rewrite rope_orientation_along, Quat_Transform_identity.
      unfold multi_link_position. fold a. rewrite Hpos, Q2R_opp, Q2R_half.
      apply Vec3_eq; simpl; rewrite ?Q2R_zero; field.
    + unfold world_frame, payload_pose. cbn [fst snd]. fold a. fold q.
      destruct q. apply Quat_eq; simpl; ring.
  - (* box attachment *)
    intros j Hj. unfold joint_count in Hj. cbn in Hj.
    assert (j = 0%nat) as -> by lia.
    cbn [physicsBody0Indices physicsBody1Indices physicsLocalPos0s physicsLocalPos1s
         physicsLocalRot0s physicsLocalRot1s jointBody0Indices jointBody1Indices
         jointLocalPos0 jointLocalPos1 jointLocalRot0 jointLocalRot1].
    eexists _, _, _, _, _, _, _, _.
    split; [reflexivity|]. split; [reflexivity|]. split; [reflexivity|].
    split; [reflexivity|]. split; [reflexivity|]. split; [reflexivity|].
    split; [apply link_pose_fmap; lia|]. split; [reflexivity|].
    split; [|reflexivity].
    unfold world_anchor, cube_pose. cbn [fst snd cube_translate cube_orient]. fold a. fold q.
    unfold q. rewrite !rope_orientation_along. unfold multi_link_position. fold a.
    rewrite ?Q2R_plus, ?Q2R_half, ?Q2R_mult, ?Q2R_opp.
    apply Vec3_eq; simpl; field.
Qed.

Lemma vertical_centred_frames (self : RigidBodyRopes) (tableTop : Cube R) (ropeInd : Z) :
  _payloadPos self = mkVec3 0.0 0.0 (_initLoadHeight self) ->
  _tableHeight self
    == _initLoadHeight self + _payloadHight self * 0.5 + _ropeLength self
       + _tableThickness self * _scaleFactor self ->
  - inject_Z (_numRopes self / 2) * _ropeSpacing self + inject_Z ropeInd * _ropeSpacing self
    == 0.0 ->
  cube_pose tableTop
    = (mkVec3 (Q2R 0.0) (Q2R 0.0)
         (Q2R (_tableHeight self - _tableThickness self * _scaleFactor self * 0.5)),
       Quat_identity) ->
  (1 <= numLinks self)%Z ->
  vertical_frames self tableTop ropeInd (vertical_rope_prims self ropeInd).
Proof.
  intros Hpos Htable Hy Htop Hn.
  unfold vertical_frames, vertical_rope_prims, joint_group.
  eexists _, _, _, _.
  split; [split; [reflexivity | split; array_lengths]|].
  split; [exists "ropeTableCon"; reflexivity|].
  split; [by split|]. split; [by split|]. split; [by split|].
  split; [|split].
  - (* chain joints *)
    intros j Hj. unfold joint_count in Hj.
    cbn [physicsProtoIndices jointMeshIndices chain_joint_arrays] in Hj.
    unfold range in Hj. rewrite length_fmap, length_seqZ in Hj.
    cbn [physicsBody0Indices physicsBody1Indices physicsLocalPos0s physicsLocalPos1s
         physicsLocalRot0s physicsLocalRot1s].
    edestruct (chain_arrays_lookup (numLinks self)) as (H0 & H1 & H2 & H3 & H4 & H5);
      [exact Hj|].
    eexists _, _, _, _, _, _, _, _.
    split; [exact H0|]. split; [exact H1|]. split; [exact H2|]. split; [exact H3|].
    split; [exact H4|]. split; [exact H5|].
    split; [apply link_pose_fmap; lia|]. split; [apply link_pose_fmap; lia|].
    split; [|reflexivity].
    unfold world_anchor. cbn [fst snd]. rewrite !Quat_Transform_identity.
    unfold vertical_link_position.
    apply Vec3_eq; cbn [vx vy vz Vec3_add Vec3_zero of_Q Scalar_R];
      rewrite ?Rplus_0_r, <- ?Q2R_plus; apply Qeq_eqR; rewrite ?inject_Z_plus; ring.
  - (* payload attachment *)
    single_joint j Hj.
    eexists _, _, _, _, _, _, _, _.
    split; [reflexivity|]. split; [reflexivity|]. split; [reflexivity|].
    split; [reflexivity|]. split; [reflexivity|]. split; [reflexivity|].
    split; [reflexivity|]. split; [apply link_pose_fmap; lia|].
    split; [|reflexivity].
    unfold world_anchor, payload_pose. cbn [fst snd]. rewrite !Quat_Transform_identity.
    unfold vertical_link_position. rewrite Hpos.
    apply Vec3_eq; cbn [vx vy vz Vec3_add Vec3_zero Vec3_Q2R of_Q Scalar_R];
      rewrite ?Rplus_0_r, <- ?Q2R_plus; apply Qeq_eqR; rewrite ?Hy; ring.
  - (* table attachment *)
    single_joint j Hj.
    eexists _, _, _, _, _, _, _, _.
    split; [reflexivity|]. split; [reflexivity|]. split; [reflexivity|].
    split; [reflexivity|]. split; [reflexivity|]. split; [reflexivity|].
    split; [apply link_pose_fmap; lia|]. split; [reflexivity|].
    rewrite Htop. split; [|reflexivity].
    unfold world_anchor. cbn [fst snd]. rewrite !Quat_Transform_identity.
    unfold vertical_link_position, rope_slack.
    apply Vec3_eq; cbn [vx vy vz Vec3_add of_Q Scalar_R];
      rewrite ?Rplus_0_r, <- ?Q2R_plus; apply Qeq_eqR; rewrite ?Htable.
    + reflexivity.
    + rewrite Hy. reflexivity.
    + unfold Z.sub. rewrite inject_Z_plus. change (inject_Z (- (1))) with (- (1)). ring.
Qed.

Section rope_length_and_links.
Variable stage : UsdStage.
Variable num_ropes : Z.
Variables rope_length payload_mass load_height : Q.

Local Abbreviation self := (configure stage num_ropes rope_length payload_mass load_height).

Lemma numLinks_floor_times_ten :
  0 <= rope_length -> numLinks self = Qfloor (rope_length * 10).
Proof.
  intros Hlen. unfold numLinks. change (_ropeLength self) with rope_length.
  assert (rope_length / linkLength self == rope_length * 10) as Hdiv.
  { change (linkLength self) with (0.06 + 2 * 0.02). field. }
  rewrite py_int_floor.
  - by rewrite Hdiv.
  - rewrite Hdiv. apply Qmult_le_0_compat; [exact Hlen | done].
Qed.

Lemma numLinks_positive : 1 # 10 <= rope_length -> (1 <= numLinks self)%Z.
Proof.
  intros Hlen. rewrite numLinks_floor_times_ten.
  - change 1%Z with (Qfloor 1). apply Qfloor_resp_le. revert Hlen. unfold Qle. simpl. lia.
  - revert Hlen. unfold Qle. simpl. lia.
Qed.

Lemma rope_slack_bounds :
  0 <= rope_length -> 0 <= rope_slack self /\ rope_slack self < linkLength self.
Proof.
  intros Hlen. unfold rope_slack. change (_ropeLength self) with rope_length.
  rewrite numLinks_floor_times_ten by exact Hlen.
  change (linkLength self) with (0.06 + 2 * 0.02).
  pose proof (Qfloor_le (rope_length * 10)) as Hlo.
  pose proof (Qlt_floor (rope_length * 10)) as Hhi.
  apply Qle_Rle in Hlo. apply Qlt_Rlt in Hhi.
  rewrite Q2R_mult in Hlo, Hhi. rewrite Q2R_inject_Z in Hlo, Hhi.
  rewrite plus_IZR in Hhi.
  assert (Q2R 10 = 10%R) as H10 by (unfold Q2R; simpl; field).
  assert (Q2R (0.06 + 2 * 0.02) = (1 / 10)%R) as HL.
  { rewrite (Qeq_eqR _ (1 # 10)) by reflexivity. unfold Q2R. simpl. field. }
  rewrite H10 in Hlo, Hhi.
  split.
  - apply Rle_Qle. rewrite Q2R_minus, Q2R_mult, Q2R_inject_Z, HL.
    change (Q2R 0) with (0 * / 1)%R. lra.
  - apply Rlt_Qlt. rewrite Q2R_minus, Q2R_mult, Q2R_inject_Z, HL. lra.
Qed.
End rope_length_and_links.

Section frames.
Variable stage : UsdStage.
Variable num_ropes : Z.
Variables rope_length payload_mass load_height : Q.
Variable elevation_angle : R.

Local Abbreviation self := (configure stage num_ropes rope_length payload_mass load_height).


End frames.

Section single_rope.
Variable stage : UsdStage.
Variables rope_length payload_mass load_height : Q.
Variable elevation_angle : R.

Local Abbreviation self := (configure stage 1 rope_length payload_mass load_height).

End single_rope.



(* ===================================================================== *)
(** ** Further properties: the vertical layout without links *)
(* ===================================================================== *)


